(** * aipdf backend: ingestion and question answering over PDF passages

    A shallow embedding of [backend/main.py].  Pure helpers ([chunk_text],
    the string operations they use) are Rocq functions; the two endpoints
    ([upload_pdfs], [ask_question]) run in a small state-and-exception monad
    whose state is the history of calls made to the external services
    (Supabase storage and tables, the OpenAI client, the Pinecone index).

    Python [str] values are modelled by [string]; a character is a code
    point below 256.  Python [int] values that the code receives from a
    caller are [Z]; lengths and indices, which are never negative, are
    [nat]. *)

From Stdlib Require Import ZArith Lia Ascii String DecimalString DecimalNat.
From stdpp Require Import base list strings gmap.

(** ** Python strings *)

Module PyStr.

(** [str.isspace] on one code point, restricted to the range 0..255:
    the C0 separators and controls U+0009..U+000D and U+001C..U+001F,
    the space, U+0085 and U+00A0. *)
Definition isspace (c : ascii) : bool :=
  let n := nat_of_ascii c in
  ((9 <=? n) && (n <=? 13)) || ((28 <=? n) && (n <=? 32))
  || (n =? 133) || (n =? 160).

(** [s.lstrip()] *)
Fixpoint lstrip (s : string) : string :=
  match s with
  | EmptyString => EmptyString
  | String c s' => if isspace c then lstrip s' else s
  end.

(** [s.rstrip()] *)
Definition rstrip (s : string) : string :=
  String.rev (lstrip (String.rev s)).

(** [s.strip()] *)
Definition strip (s : string) : string := rstrip (lstrip s).

(** Truth value of a string: [not s] is [true] for the empty string. *)
Definition not_ (s : string) : bool :=
  match s with EmptyString => true | String _ _ => false end.

(** [s[lo:hi]] for [0 <= lo] and [0 <= hi]: both ends are clipped to the
    length of [s]. *)
Definition slice (s : string) (lo hi : nat) : string :=
  substring lo (hi - lo) s.

(** [str(n)] for a non-negative integer. *)
Definition str_of_nat (n : nat) : string :=
  NilZero.string_of_uint (Nat.to_uint n).

(** Every character of the string is whitespace. *)
Fixpoint all_space (s : string) : bool :=
  match s with
  | EmptyString => true
  | String c s' => isspace c && all_space s'
  end.

(** Concatenation of a list of strings, in order. *)
Definition cat (l : list string) : string := foldr String.app EmptyString l.

Fixpoint drop_chars (n : nat) (s : string) : string :=
  match n, s with
  | O, _ => s
  | S _, EmptyString => EmptyString
  | S n', String _ s' => drop_chars n' s'
  end.

Fixpoint take_chars (n : nat) (s : string) : string :=
  match n, s with
  | O, _ => EmptyString
  | S _, EmptyString => EmptyString
  | S n', String c s' => String c (take_chars n' s')
  end.

End PyStr.

(** ** Outcomes: a value, or a raised exception *)

Record exn := PyExn {
  exn_class : string;
  exn_msg : string;
  (** whether the class derives from [Exception] (and not only from
      [BaseException]), which is what [except Exception] tests *)
  exn_is_Exception : bool
}.

Inductive outcome (A : Type) : Type :=
| Ok (a : A)
| Raise (e : exn).
Arguments Ok {A} a.
Arguments Raise {A} e.

Definition ValueError (msg : string) : exn := PyExn "ValueError" msg true.
Definition TypeError (msg : string) : exn := PyExn "TypeError" msg true.

(** ** The chunker *)

Module Chunker.
Import PyStr.

(** The elements of [range(i, stop, step)] for [step > 0]; [fuel] bounds
    the number of elements, and [stop - i] is always enough. *)
Fixpoint range_from (fuel i stop step : nat) : list nat :=
  match fuel with
  | O => []
  | S fuel' =>
      if i <? stop then i :: range_from fuel' (i + step) stop step else []
  end.

(** [range(0, stop, step)]: a zero step raises [ValueError], a negative
    step gives the empty range (the start, 0, is not above [stop]). *)
Definition range0 (stop : nat) (step : Z) : outcome (list nat) :=
  if (step =? 0)%Z then Raise (ValueError "range() arg 3 must not be zero")
  else if (step <? 0)%Z then Ok []
  else Ok (range_from stop 0 stop (Z.to_nat step)).

(** [chunk_text(text, max_chars)]: the loop appends [text[i : i + max_chars]]
    for each [i] of the range. *)
Definition chunk_text (text : string) (max_chars : Z) : outcome (list string) :=
  match range0 (String.length text) max_chars with
  | Raise e => Raise e
  | Ok idxs =>
      Ok (fold_left
            (fun chunks i => chunks ++ [slice text i (i + Z.to_nat max_chars)])
            idxs [])
  end.

(** ceil(n / m) on naturals *)
Definition ceil_div (n m : nat) : nat := (n + m - 1) / m.

End Chunker.

(** ** External services and the history of calls *)

(** A [List[float]] as returned by the embeddings API.  The program never
    looks inside it; each float stands by its 64-bit pattern. *)
Definition embedding : Type := list Z.

(** Values stored in a Pinecone metadata dict. *)
Inductive mdval : Type :=
| MdStr (s : string)
| MdInt (n : Z).

(** One entry of the list given to [index.upsert]. *)
Record vector := Vector {
  vec_id : string;
  vec_values : embedding;
  vec_metadata : gmap string mdval
}.

(** One element of [query_res["matches"]]; the ["metadata"] key may be
    missing. *)
Record query_match := QueryMatch {
  match_id : string;
  match_score : Z;
  match_metadata : option (gmap string mdval)
}.

(** An uploaded file: its name and what [await file.read()] gives. *)
Record upload_file := UploadFile {
  filename : string;
  content : list Byte.byte
}.

(** Calls to the outside world, in the order they are made. *)
Inductive event : Type :=
| StorageUpload (bucket path : string) (data : list Byte.byte)
| EmbeddingsCreate (model input : string)
| IndexUpsert (vectors : list vector)
| TableInsert (table : string) (row : gmap string string)
| IndexQuery (vec : embedding) (top_k : nat) (include_metadata : bool)
| ChatCompletionsCreate (model : string) (messages : list (string * string))
| Stdout (line : string).

Definition history : Type := list event.

(** The module-level clients and configuration.  Each service answers a
    call from its arguments and from everything that happened before. *)
Record services := Services {
  SUPABASE_BUCKET : string;
  uuid4 : history -> string;
  storage_upload : history -> string -> string -> list Byte.byte -> outcome string;
  (** [PdfReader(stream).pages], each page given by the result of its
      [extract_text()] *)
  PdfReader : list Byte.byte -> outcome (list (outcome (option string)));
  embeddings_create : history -> string -> string -> outcome embedding;
  index_upsert : history -> list vector -> outcome unit;
  table_insert : history -> string -> gmap string string -> outcome unit;
  index_query : history -> embedding -> nat -> bool -> outcome (list query_match);
  chat_completions_create :
    history -> string -> list (string * string) -> outcome string
}.

(** ** The monad of the endpoints *)

Definition io (A : Type) : Type := history -> outcome A * history.

Definition ret {A : Type} (a : A) : io A := fun h => (Ok a, h).

Definition bind {A B : Type} (m : io A) (k : A -> io B) : io B :=
  fun h =>
    match m h with
    | (Ok a, h') => k a h'
    | (Raise e, h') => (Raise e, h')
    end.

Definition lift {A : Type} (o : outcome A) : io A := fun h => (o, h).

(** A call to a service: the service answers from the history so far, and
    the call is recorded whether it succeeds or raises. *)
Definition call {A : Type} (ev : event) (service : history -> outcome A) : io A :=
  fun h => (service h, h ++ [ev]).

Definition print (line : string) : io unit := fun h => (Ok tt, h ++ [Stdout line]).

(** [try: body  except Exception as e: handler(e)] *)
Definition try_except_Exception {A : Type} (body : io A) (handler : exn -> io A)
  : io A :=
  fun h =>
    match body h with
    | (Raise e, h') => if exn_is_Exception e then handler e h' else (Raise e, h')
    | r => r
    end.

Declare Scope io_scope.
Delimit Scope io_scope with io.
Notation "x <- m ;; k" := (bind m (fun x => k))
  (at level 100, m at next level, right associativity) : io_scope.
Notation "m ;;; k" := (bind m (fun _ => k))
  (at level 100, right associativity) : io_scope.

(** ** Helper functions of the backend *)

Module Backend.
Import PyStr Chunker.
Local Open Scope io_scope.

Definition nl : string := String "010"%char EmptyString.

(** [extract_text_from_pdf_bytes]: the loop [text += page.extract_text() or ""] *)
Fixpoint extract_pages (pages : list (outcome (option string))) (text : string)
  : outcome string :=
  match pages with
  | [] => Ok text
  | Raise e :: _ => Raise e
  | Ok t :: rest => extract_pages rest (text +:+ default EmptyString t)
  end.

Definition extract_text_from_pdf_bytes (W : services) (file_bytes : list Byte.byte)
  : outcome string :=
  match PdfReader W file_bytes with
  | Raise e => Raise e
  | Ok pages => extract_pages pages EmptyString
  end.

Definition get_embedding (W : services) (text : string) : io embedding :=
  call (EmbeddingsCreate "text-embedding-3-small" text)
       (fun h => embeddings_create W h "text-embedding-3-small" text).

Definition system_prompt : string :=
  "You are an AI assistant that answers questions based on the provided PDF context.".

Definition user_prompt (question context : string) : string :=
  "Context:" +:+ nl +:+ context +:+ nl +:+ nl +:+ "Question: " +:+ question.

(** [generate_answer]; the sampling temperature, a float constant, is not
    part of the recorded call. *)
Definition generate_answer (W : services) (question context : string) : io string :=
  let messages := [("system", system_prompt); ("user", user_prompt question context)] in
  call (ChatCompletionsCreate "gpt-4o-mini" messages)
       (fun h => chat_completions_create W h "gpt-4o-mini" messages).

(** [enumerate(l)] *)
Fixpoint enumerate_from {A : Type} (i : nat) (l : list A) : list (nat * A) :=
  match l with
  | [] => []
  | x :: l' => (i, x) :: enumerate_from (S i) l'
  end.

Definition enumerate {A : Type} (l : list A) : list (nat * A) := enumerate_from 0 l.

(** ** POST /upload *)

Record doc_summary := DocSummary {
  sum_file_id : string;
  sum_file_name : string;
  sum_chunks : nat
}.

Record upload_response := UploadResponse {
  status : string;
  uploaded : list doc_summary
}.

Definition chunk_metadata (file_id file_name : string) (i : nat) (chunk : string)
  : gmap string mdval :=
  <["file_id" := MdStr file_id]>
    (<["file_name" := MdStr file_name]>
       (<["chunk_index" := MdInt (Z.of_nat i)]>
          (<["text" := MdStr chunk]> ∅))).

Definition chunk_vector (file_id file_name : string) (i : nat) (chunk : string)
    (emb : embedding) : vector :=
  Vector (file_id +:+ "_" +:+ str_of_nat i) emb
         (chunk_metadata file_id file_name i chunk).

(** The loop [for i, chunk in enumerate(chunks)] of step 4. *)
Fixpoint embed_chunks (W : services) (file_id file_name : string)
    (ichunks : list (nat * string)) (vectors : list vector) : io (list vector) :=
  match ichunks with
  | [] => ret vectors
  | (i, chunk) :: rest =>
      if not_ (strip chunk) then embed_chunks W file_id file_name rest vectors
      else
        emb <- get_embedding W chunk ;;
        embed_chunks W file_id file_name rest
          (vectors ++ [chunk_vector file_id file_name i chunk emb])
  end.

Definition document_row (file_id file_name storage_path : string) : gmap string string :=
  <["id" := file_id]>
    (<["file_name" := file_name]> (<["storage_path" := storage_path]> ∅)).

(** Step 5, with its [try]/[except Exception]. *)
Definition insert_document (W : services) (file_id file_name path : string) : io unit :=
  try_except_Exception
    (call (TableInsert "documents" (document_row file_id file_name path))
          (fun h => table_insert W h "documents" (document_row file_id file_name path)))
    (fun e => print ("Error inserting into Supabase documents table: " +:+ exn_msg e)).

(** The body of [for file in files]. *)
Definition upload_one (W : services) (file : upload_file) : io doc_summary :=
  file_id <- (fun h => (Ok (uuid4 W h), h)) ;;
  let file_bytes := content file in
  let path_on_bucket := file_id +:+ "/" +:+ filename file in
  res <- call (StorageUpload (SUPABASE_BUCKET W) path_on_bucket file_bytes)
              (fun h => storage_upload W h (SUPABASE_BUCKET W) path_on_bucket file_bytes) ;;
  print ("Supabase upload response: " +:+ res) ;;;
  text <- lift (extract_text_from_pdf_bytes W file_bytes) ;;
  chunks <- lift (chunk_text text 1000) ;;
  vectors <- embed_chunks W file_id (filename file) (enumerate chunks) [] ;;
  (match vectors with
   | [] => ret tt
   | _ :: _ => call (IndexUpsert vectors) (fun h => index_upsert W h vectors)
   end) ;;;
  insert_document W file_id (filename file) path_on_bucket ;;;
  ret (DocSummary file_id (filename file) (length chunks)).

Fixpoint upload_loop (W : services) (files : list upload_file)
    (uploaded_docs : list doc_summary) : io (list doc_summary) :=
  match files with
  | [] => ret uploaded_docs
  | file :: rest =>
      doc <- upload_one W file ;;
      upload_loop W rest (uploaded_docs ++ [doc])
  end.

Definition upload_pdfs (W : services) (files : list upload_file) : io upload_response :=
  uploaded_docs <- upload_loop W files [] ;;
  ret (UploadResponse "ok" uploaded_docs).

(** ** POST /ask *)

Definition separator : string := nl +:+ nl +:+ "---" +:+ nl +:+ nl.

Definition fallback_answer : string :=
  "I could not find relevant information in the uploaded PDFs.".

(** [match.get("metadata", {}).get("text", "")] *)
Definition match_text (m : query_match) : mdval :=
  let md := default ∅ (match_metadata m) in
  default (MdStr EmptyString) (md !! "text").

(** [sep.join(parts)]: every item must be a [str]; the first item that is
    not one raises a [TypeError] that names its index. *)
Fixpoint str_items_from (i : nat) (parts : list mdval) : outcome (list string) :=
  match parts with
  | [] => Ok []
  | MdStr s :: rest =>
      match str_items_from (S i) rest with
      | Ok l => Ok (s :: l)
      | Raise e => Raise e
      end
  | MdInt _ :: _ =>
      Raise (TypeError ("sequence item " +:+ str_of_nat i
                        +:+ ": expected str instance, int found"))
  end.

Definition str_items (parts : list mdval) : outcome (list string) :=
  str_items_from 0 parts.

Fixpoint join_strs (sep : string) (l : list string) : string :=
  match l with
  | [] => EmptyString
  | [x] => x
  | x :: rest => x +:+ sep +:+ join_strs sep rest
  end.

Definition join (sep : string) (parts : list mdval) : outcome string :=
  match str_items parts with
  | Ok l => Ok (join_strs sep l)
  | Raise e => Raise e
  end.

(** Step 3: the list of texts, then the joined context. *)
Definition build_context (matches : list query_match) : outcome string :=
  let context_parts :=
    fold_left (fun parts m => parts ++ [match_text m]) matches [] in
  join separator context_parts.

Definition ask_question (W : services) (question : string) : io string :=
  q_emb <- get_embedding W question ;;
  matches <- call (IndexQuery q_emb 5 true)
                  (fun h => index_query W h q_emb 5 true) ;;
  context <- lift (build_context matches) ;;
  if not_ (strip context) then ret fallback_answer
  else
    answer <- generate_answer W question context ;;
    ret answer.

(** ** GET / *)

Definition root : gmap string string :=
  {[ "message" := "AI PDF Assistant backend is running" ]}.

End Backend.

(** ** Vocabulary of the statements *)

Module Obs.
Import PyStr Chunker Backend.

(** The test of the loop: [not chunk.strip()]. *)
Definition blank (chunk : string) : bool := not_ (strip chunk).

(** No character of the string is whitespace. *)
Fixpoint no_space (s : string) : bool :=
  match s with
  | EmptyString => true
  | String c s' => negb (isspace c) && no_space s'
  end.

(** The records given to [index.upsert] in a stretch of history. *)
Fixpoint upserted (evs : history) : list vector :=
  match evs with
  | [] => []
  | IndexUpsert vectors :: evs' => vectors ++ upserted evs'
  | _ :: evs' => upserted evs'
  end.

Definition is_upsert (ev : event) : bool :=
  match ev with IndexUpsert _ => true | _ => false end.

Definition is_embedding (ev : event) : bool :=
  match ev with EmbeddingsCreate _ _ => true | _ => false end.

Definition is_chat (ev : event) : bool :=
  match ev with ChatCompletionsCreate _ _ => true | _ => false end.

(** Events of step 5 and of the logging: no service of the pipeline. *)
Definition is_bookkeeping (ev : event) : bool :=
  match ev with TableInsert _ _ | Stdout _ => true | _ => false end.

(** What step 4 ends with: one [index.upsert] call for a non-empty list,
    no call for the empty list. *)
Definition upsert_calls (vectors : list vector) : history :=
  match vectors with
  | [] => []
  | _ :: _ => [IndexUpsert vectors]
  end.

Definition vec_chunk_index (v : vector) : option mdval :=
  vec_metadata v !! "chunk_index".

Definition vec_text (v : vector) : option mdval := vec_metadata v !! "text".

(** The chunks of a file: its extracted text cut at 1000 characters (no
    chunk when the extraction raises). *)
Definition chunks_of (W : services) (file : upload_file) : list string :=
  match extract_text_from_pdf_bytes W (content file) with
  | Ok text =>
      match chunk_text text 1000 with
      | Ok chunks => chunks
      | Raise _ => []
      end
  | Raise _ => []
  end.

(** The enumerated chunks that pass the blank test, and their positions. *)
Definition kept_chunks (chunks : list string) : list (nat * string) :=
  List.filter (fun ic => negb (blank ic.2)) (enumerate chunks).

Definition nonblank_positions (chunks : list string) : list nat :=
  map fst (kept_chunks chunks).

(** A summary entry reports the name of the file and the number of chunks
    the chunker made of its text, blank or not. *)
Definition counts_all_chunks (W : services) (file : upload_file) (doc : doc_summary)
  : Prop :=
  sum_file_name doc = filename file
  /\ (exists text, extract_text_from_pdf_bytes W (content file) = Ok text
                   /\ chunk_text text 1000 = Ok (chunks_of W file))
  /\ sum_chunks doc = length (chunks_of W file).

(** The text field of a match when it has one that is a [str], the empty
    string when the metadata or the field is missing. *)
Definition text_or_empty (m : query_match) : string :=
  match match_metadata m with
  | Some md => match md !! "text" with Some (MdStr s) => s | _ => EmptyString end
  | None => EmptyString
  end.

(** Every text field that is present is a [str]. *)
Definition texts_are_str (matches : list query_match) : Prop :=
  Forall (fun m => forall md v,
              match_metadata m = Some md -> md !! "text" = Some v ->
              exists s, v = MdStr s) matches.

End Obs.

(** ** Concrete services, for running the endpoints *)

Module Demo.
Import PyStr Chunker Backend.

Definition pdf_error : exn := PyExn "EmptyFileError" "Cannot read an empty file" true.
Definition storage_error : exn := PyExn "StorageException" "Bucket not found" true.

(** A reader that cannot read an empty file and otherwise finds one page
    whose text is the bytes of the file. *)
Definition reader (b : list Byte.byte) : outcome (list (outcome (option string))) :=
  match b with
  | [] => Raise pdf_error
  | _ :: _ => Ok [Ok (Some (string_of_list_byte b))]
  end.

Definition W_matches (matches : list query_match) : services :=
  {| SUPABASE_BUCKET := "pdfs";
     uuid4 := fun h => "doc" +:+ str_of_nat (length h);
     storage_upload := fun _ _ _ _ => Ok "ok";
     PdfReader := reader;
     embeddings_create := fun _ _ input => Ok [Z.of_nat (String.length input)];
     index_upsert := fun _ _ => Ok tt;
     table_insert := fun _ _ _ => Ok tt;
     index_query := fun _ _ _ _ => Ok matches;
     chat_completions_create := fun _ _ _ => Ok "An answer." |}.

Definition W0 : services := W_matches [].

Definition W_storage_down : services :=
  {| SUPABASE_BUCKET := "pdfs";
     uuid4 := uuid4 W0;
     storage_upload := fun _ _ _ _ => Raise storage_error;
     PdfReader := reader;
     embeddings_create := embeddings_create W0;
     index_upsert := index_upsert W0;
     table_insert := table_insert W0;
     index_query := index_query W0;
     chat_completions_create := chat_completions_create W0 |}.

Fixpoint repeat_char (c : ascii) (n : nat) : string :=
  match n with
  | O => EmptyString
  | S n' => String c (repeat_char c n')
  end.

Definition doc (name text : string) : upload_file :=
  UploadFile name (list_byte_of_string text).

Definition broken : upload_file := UploadFile "broken.pdf" [].
Definition good : upload_file := doc "good.pdf" "hello world".
Definition spaces : upload_file := doc "spaces.pdf" "   ".

(** 1000 letters, 1000 spaces, one letter: the middle chunk is blank. *)
Definition gappy_text : string :=
  repeat_char "a" 1000 +:+ repeat_char " " 1000 +:+ "b".
Definition gappy : upload_file := doc "gappy.pdf" gappy_text.

(** 2500 letters. *)
Definition long_text : string := repeat_char "x" 2500.
Definition long : upload_file := doc "long.pdf" long_text.

Definition with_text (score : Z) (text : string) : query_match :=
  QueryMatch "id" score (Some (<["text" := MdStr text]> ∅)).
Definition without_text : query_match := QueryMatch "id" 0 (Some ∅).
Definition without_metadata : query_match := QueryMatch "id" 0 None.

End Demo.

(** ** Vocabulary for the order of the calls *)

Module Trace.
Import PyStr Chunker Backend Obs.

(** The inputs of the embedding calls in a stretch of history, in order. *)
Fixpoint embedding_inputs (evs : history) : list string :=
  match evs with
  | [] => []
  | EmbeddingsCreate _ input :: evs' => input :: embedding_inputs evs'
  | _ :: evs' => embedding_inputs evs'
  end.

Definition is_table_insert (ev : event) : bool :=
  match ev with TableInsert _ _ => true | _ => false end.

(** The slices of a text at the multiples of [m]. *)
Definition chunk_list (text : string) (m : nat) : list string :=
  map (fun k => slice text (k * m) (k * m + m))
      (seq 0 (ceil_div (String.length text) m)).

(** The upsert calls that may follow the embedding calls [embeds] of a
    document: none, or one call whose list is not empty and has one record
    per embedding call. *)
Definition ups_ok (embeds ups : history) : Prop :=
  ups = []
  \/ exists vectors, ups = [IndexUpsert vectors] /\ vectors <> []
                     /\ length vectors = length embeds.

(** What may follow the storage call of a document: nothing, or the
    printed response, then embedding calls only, then the upsert calls, then
    events of step 5 only. *)
Definition after_storage (rest : history) : Prop :=
  rest = []
  \/ exists res embeds ups tail,
       rest = Stdout ("Supabase upload response: " +:+ res) :: embeds ++ ups ++ tail
       /\ Forall (fun ev => is_embedding ev = true) embeds
       /\ ups_ok embeds ups
       /\ Forall (fun ev => is_bookkeeping ev = true) tail.

(** All the services answer: storage, the reader on the given files, the
    embeddings and the index never raise, and the table insert raises
    nothing but an [Exception]. *)
Definition services_answer (W : services) (files : list upload_file) : Prop :=
  (forall h bucket path data, exists res, storage_upload W h bucket path data = Ok res)
  /\ Forall (fun file => exists text,
                extract_text_from_pdf_bytes W (content file) = Ok text) files
  /\ (forall h model input, exists emb, embeddings_create W h model input = Ok emb)
  /\ (forall h vectors, index_upsert W h vectors = Ok tt)
  /\ (forall h table row e, table_insert W h table row = Raise e ->
                            exn_is_Exception e = true).

End Trace.

(** ** Services that fail, for running the endpoints *)

Module Outage.
Import PyStr Chunker Backend Demo.

Definition embed_error : exn := PyExn "RateLimitError" "Rate limit reached" true.
Definition index_error : exn := PyExn "PineconeException" "Index unreachable" true.
Definition insert_error : exn := PyExn "APIError" "relation does not exist" true.
Definition interrupt : exn := PyExn "KeyboardInterrupt" EmptyString false.

(** The demonstration services with the reader, the embeddings, the index
    and the table replaced. *)
Definition W_custom
    (pdf_reader : list Byte.byte -> outcome (list (outcome (option string))))
    (embed : string -> outcome embedding)
    (upsert : outcome unit) (query : outcome (list query_match))
    (insert : outcome unit) : services :=
  {| SUPABASE_BUCKET := "pdfs";
     uuid4 := uuid4 W0;
     storage_upload := storage_upload W0;
     PdfReader := pdf_reader;
     embeddings_create := fun _ _ input => embed input;
     index_upsert := fun _ _ => upsert;
     table_insert := fun _ _ _ => insert;
     index_query := fun _ _ _ _ => query;
     chat_completions_create := chat_completions_create W0 |}.

Definition embed_length (input : string) : outcome embedding :=
  Ok [Z.of_nat (String.length input)].

(** The embeddings fail on the input ["b"] only. *)
Definition embed_not_b (input : string) : outcome embedding :=
  if String.eqb input "b" then Raise embed_error else embed_length input.

Definition W_embed_fails : services :=
  W_custom reader embed_not_b (Ok tt) (Ok []) (Ok tt).
Definition W_all_embed_fail : services :=
  W_custom reader (fun _ => Raise embed_error) (Ok tt) (Ok []) (Ok tt).
Definition W_upsert_down : services :=
  W_custom reader embed_length (Raise index_error) (Ok []) (Ok tt).
Definition W_query_down : services :=
  W_custom reader embed_length (Ok tt) (Raise index_error) (Ok tt).
Definition W_insert_down : services :=
  W_custom reader embed_length (Ok tt) (Ok []) (Raise insert_error).
Definition W_insert_interrupted : services :=
  W_custom reader embed_length (Ok tt) (Ok []) (Raise interrupt).

(** A reader that finds the given pages in every file. *)
Definition W_pages (pages : list (outcome (option string))) : services :=
  W_custom (fun _ => Ok pages) embed_length (Ok tt) (Ok []) (Ok tt).

End Outage.

(** ** Facts on strings *)

Section StringFacts.
Import PyStr.

Lemma substring_take_drop (i m : nat) (s : string) :
  substring i m s = take_chars m (drop_chars i s).
Proof.
  revert i m. induction s as [|c s IH]; intros [|i] [|m]; simpl; try reflexivity.
  - f_equal. specialize (IH 0 m). destruct s; simpl in *; [destruct m|]; exact IH.
  - apply IH.
  - apply IH.
Qed.

Lemma app_String (c : ascii) (s t : string) :
  String c s +:+ t = String c (s +:+ t).
Proof. reflexivity. Qed.

Lemma app_empty_r (s : string) : s +:+ EmptyString = s.
Proof. induction s as [|c s IH]; [reflexivity|]. now rewrite app_String, IH. Qed.

Lemma app_assoc_str (s t u : string) : (s +:+ t) +:+ u = s +:+ (t +:+ u).
Proof.
  induction s as [|c s IH]; [reflexivity|]. now rewrite !app_String, IH.
Qed.

Lemma length_app_str (s t : string) :
  String.length (s +:+ t) = String.length s + String.length t.
Proof.
  induction s as [|c s IH]; [reflexivity|]. rewrite app_String. simpl. now rewrite IH.
Qed.

Lemma take_drop_chars (m : nat) (s : string) :
  take_chars m s +:+ drop_chars m s = s.
Proof.
  revert s. induction m as [|m IH]; intros [|c s]; simpl; try reflexivity.
  now rewrite app_String, IH.
Qed.

Lemma drop_drop_chars (i m : nat) (s : string) :
  drop_chars m (drop_chars i s) = drop_chars (i + m) s.
Proof.
  revert s. induction i as [|i IH]; intros s; simpl; [reflexivity|].
  destruct s; [destruct m; reflexivity | apply IH].
Qed.

Lemma length_take_chars (m : nat) (s : string) :
  String.length (take_chars m s) = Nat.min m (String.length s).
Proof.
  revert s. induction m as [|m IH]; intros [|c s]; simpl; try reflexivity.
  now rewrite IH.
Qed.

Lemma length_drop_chars (i : nat) (s : string) :
  String.length (drop_chars i s) = String.length s - i.
Proof.
  revert s. induction i as [|i IH]; intros [|c s]; simpl; try reflexivity; try lia.
  apply IH.
Qed.

Lemma drop_chars_all (i : nat) (s : string) :
  String.length s <= i -> drop_chars i s = EmptyString.
Proof.
  revert s. induction i as [|i IH]; intros [|c s]; simpl; intros H;
    try reflexivity; try lia.
  apply IH. lia.
Qed.

Lemma length_slice (s : string) (lo hi : nat) :
  String.length (slice s lo hi) = Nat.min (hi - lo) (String.length s - lo).
Proof.
  unfold slice. now rewrite substring_take_drop, length_take_chars, length_drop_chars.
Qed.

End StringFacts.

(** ** Facts on the chunker *)

Section ChunkerFacts.
Import PyStr Chunker.

Lemma take_chars_all (n : nat) (s : string) :
  String.length s <= n -> take_chars n s = s.
Proof.
  revert s. induction n as [|n IH]; intros [|c s]; simpl; intros H;
    try reflexivity; try lia.
  f_equal. apply IH. lia.
Qed.

Lemma take_chars_add (a b : nat) (s : string) :
  take_chars (a + b) s = take_chars a s +:+ take_chars b (drop_chars a s).
Proof.
  revert s. induction a as [|a IH]; intros s; simpl; [reflexivity|].
  destruct s as [|c s]; [now destruct b|].
  now rewrite app_String, IH.
Qed.

Lemma ceil_div_0 (m : nat) : 0 < m -> ceil_div 0 m = 0.
Proof. intros Hm. unfold ceil_div. apply Nat.div_small. lia. Qed.

Lemma ceil_div_pos (n m : nat) :
  0 < m -> 0 < n -> ceil_div n m = S ((n - 1) / m).
Proof.
  intros Hm Hn. unfold ceil_div.
  replace (n + m - 1) with ((n - 1) + 1 * m) by lia.
  rewrite Nat.div_add by lia. lia.
Qed.

Lemma ceil_div_step (n m : nat) :
  0 < m -> 0 < n -> ceil_div n m = S (ceil_div (n - m) m).
Proof.
  intros Hm Hn. rewrite (ceil_div_pos n m) by assumption. f_equal.
  destruct (Nat.le_gt_cases n m) as [Hle|Hgt].
  - replace (n - m) with 0 by lia. rewrite ceil_div_0 by assumption.
    apply Nat.div_small. lia.
  - unfold ceil_div. f_equal. lia.
Qed.

(** [ceil_div n m] is the least [q] with [n <= q * m]. *)
Lemma ceil_div_upper (n m : nat) : 0 < m -> n <= ceil_div n m * m.
Proof.
  intros Hm. destruct n as [|n]; [lia|].
  rewrite ceil_div_pos by lia. replace (S n - 1) with n by lia.
  pose proof (Nat.div_mod n m ltac:(lia)) as Hd.
  pose proof (Nat.mod_upper_bound n m ltac:(lia)) as Hr.
  nia.
Qed.

Lemma ceil_div_least (n m q : nat) : 0 < m -> n <= q * m -> ceil_div n m <= q.
Proof.
  intros Hm Hq. destruct n as [|n]; [rewrite ceil_div_0 by assumption; lia|].
  rewrite ceil_div_pos by lia. replace (S n - 1) with n by lia.
  assert (n / m < q); [|lia].
  apply Nat.Div0.div_lt_upper_bound. nia.
Qed.

Lemma range_from_seq (fuel i stop step : nat) :
  0 < step -> stop - i <= fuel ->
  range_from fuel i stop step
  = map (fun k => i + k * step) (seq 0 (ceil_div (stop - i) step)).
Proof.
  intros Hstep. revert i. induction fuel as [|fuel IH]; intros i Hfuel; simpl.
  - replace (stop - i) with 0 by lia. now rewrite ceil_div_0.
  - destruct (Nat.ltb_spec i stop) as [Hlt|Hge].
    + rewrite IH by lia. rewrite (ceil_div_step (stop - i) step) by lia.
      rewrite <- cons_seq, <- seq_shift, map_cons, map_map.
      f_equal; [lia|].
      replace (stop - (i + step)) with (stop - i - step) by lia.
      apply map_ext. intros k. lia.
    + replace (stop - i) with 0 by lia. now rewrite ceil_div_0.
Qed.

Lemma fold_left_snoc {A B : Type} (f : A -> B) (l : list A) (acc : list B) :
  fold_left (fun out x => out ++ [f x]) l acc = acc ++ map f l.
Proof.
  revert acc. induction l as [|x l IH]; intros acc; simpl.
  - now rewrite app_nil_r.
  - rewrite IH. now rewrite <- app_assoc.
Qed.

(** The chunks are the slices at the multiples of [max_chars]. *)
Lemma chunk_text_slices (text : string) (max_chars : Z) :
  (0 < max_chars)%Z ->
  chunk_text text max_chars
  = Ok (map (fun k => slice text (k * Z.to_nat max_chars)
                        (k * Z.to_nat max_chars + Z.to_nat max_chars))
          (seq 0 (ceil_div (String.length text) (Z.to_nat max_chars)))).
Proof.
  intros HM. unfold chunk_text, range0.
  destruct (Z.eqb_spec max_chars 0) as [->|_]; [lia|].
  destruct (Z.ltb_spec max_chars 0) as [?|_]; [lia|].
  rewrite fold_left_snoc. simpl. f_equal.
  rewrite range_from_seq by lia. rewrite Nat.sub_0_r, map_map.
  reflexivity.
Qed.

Lemma cat_slices (text : string) (m k n : nat) :
  cat (map (fun j => slice text (j * m) (j * m + m)) (seq k n))
  = take_chars (n * m) (drop_chars (k * m) text).
Proof.
  revert k. induction n as [|n IH]; intros k; simpl; [reflexivity|].
  rewrite IH. unfold slice. rewrite substring_take_drop.
  replace (k * m + m - k * m) with m by lia.
  rewrite take_chars_add, drop_drop_chars.
  do 3 f_equal. lia.
Qed.

Lemma cat_app (l1 l2 : list string) : cat (l1 ++ l2) = cat l1 +:+ cat l2.
Proof.
  induction l1 as [|x l1 IH]; simpl; [reflexivity|].
  unfold cat in *. simpl. now rewrite IH, app_assoc_str.
Qed.

End ChunkerFacts.

(** ** The chunker's contract *)

Section ChunkerContract.
Import PyStr Chunker.

(** C4.  For a positive [max_chars], [chunk_text] returns chunks whose
    concatenation in order is the text, each of length at most
    [max_chars], and there are ceil(len(text) / max_chars) of them; the
    empty text gives no chunk. *)
Theorem chunk_text_partition (text : string) (max_chars : Z) :
  (0 < max_chars)%Z ->
  exists chunks,
    chunk_text text max_chars = Ok chunks
    /\ cat chunks = text
    /\ Forall (fun c => (Z.of_nat (String.length c) <= max_chars)%Z) chunks
    /\ length chunks = ceil_div (String.length text) (Z.to_nat max_chars)
    /\ (text = EmptyString -> chunks = []).
Proof.
  intros HM. eexists. split; [apply chunk_text_slices; exact HM|].
  set (m := Z.to_nat max_chars). assert (Hm : 0 < m) by (unfold m; lia).
  repeat split.
  - rewrite cat_slices. simpl. apply take_chars_all, ceil_div_upper, Hm.
  - apply Forall_forall. intros c Hc. apply list_elem_of_In, in_map_iff in Hc.
    destruct Hc as (k & <- & _). rewrite length_slice. unfold m. lia.
  - now rewrite length_map, length_seq.
  - intros ->. simpl. now rewrite ceil_div_0.
Qed.

Lemma chunk_text_partition_witness :
  exists chunks,
    chunk_text "abcdefg" 3 = Ok chunks
    /\ cat chunks = "abcdefg"
    /\ Forall (fun c => (Z.of_nat (String.length c) <= 3)%Z) chunks
    /\ length chunks = ceil_div (String.length "abcdefg") (Z.to_nat 3)
    /\ ("abcdefg" = EmptyString -> chunks = []).
Proof. apply (chunk_text_partition "abcdefg" 3). reflexivity. Defined.

Example chunk_text_abcdefg : chunk_text "abcdefg" 3 = Ok ["abc"; "def"; "g"].
Proof. reflexivity. Qed.

Example chunk_text_zero : chunk_text "abc" 0 = Raise (ValueError "range() arg 3 must not be zero").
Proof. reflexivity. Qed.

Example chunk_text_negative : chunk_text "abc" (-2) = Ok [].
Proof. reflexivity. Qed.

(** C10.  For a non-empty text and a positive [max_chars], no chunk is
    empty, every chunk but the last has exactly [max_chars] characters,
    and the last has len(text) - max_chars * (ceil(len(text)/max_chars) - 1). *)
Theorem chunk_text_lengths (text : string) (max_chars : Z) :
  (0 < max_chars)%Z -> text <> EmptyString ->
  exists chunks,
    chunk_text text max_chars = Ok chunks
    /\ Forall (fun c => c <> EmptyString) chunks
    /\ (forall k c, chunks !! k = Some c -> S k < length chunks ->
                    String.length c = Z.to_nat max_chars)
    /\ (exists c, last chunks = Some c
                  /\ String.length c
                     = String.length text
                       - Z.to_nat max_chars
                         * (ceil_div (String.length text) (Z.to_nat max_chars) - 1)).
Proof.
  intros HM Hne. eexists. split; [apply chunk_text_slices; exact HM|].
  set (m := Z.to_nat max_chars). assert (Hm : 0 < m) by (unfold m; lia).
  set (n := String.length text).
  assert (Hn : 0 < n) by (unfold n; destruct text; [congruence | simpl; lia]).
  set (q := ceil_div n m).
  assert (Hq : q = S ((n - 1) / m)) by (apply ceil_div_pos; assumption).
  assert (Hlow : (q - 1) * m < n).
  { rewrite Hq. pose proof (Nat.div_mod (n - 1) m ltac:(lia)).
    pose proof (Nat.mod_upper_bound (n - 1) m ltac:(lia)). nia. }
  assert (Hlen : forall k, k < q ->
            String.length (slice text (k * m) (k * m + m)) = Nat.min m (n - k * m)).
  { intros k _. rewrite length_slice. fold n. f_equal. lia. }
  repeat split.
  - apply Forall_forall. intros c Hc. apply list_elem_of_In, in_map_iff in Hc.
    destruct Hc as (k & <- & Hk). apply in_seq in Hk.
    intros Hc. apply (f_equal String.length) in Hc. rewrite Hlen in Hc by lia.
    simpl in Hc. assert (k * m < n) by nia. lia.
  - intros k c Hk Hlt. rewrite length_map, length_seq in Hlt.
    rewrite list_lookup_fmap in Hk.
    rewrite lookup_seq_lt in Hk by lia. simpl in Hk. injection Hk as <-.
    rewrite Hlen by lia. assert ((k + 1) * m <= (q - 1) * m) by nia. lia.
  - exists (slice text ((q - 1) * m) ((q - 1) * m + m)). split.
    + replace (seq 0 q) with (seq 0 (q - 1) ++ [q - 1])
        by (rewrite <- seq_S; f_equal; lia).
      rewrite map_app. simpl. apply last_snoc.
    + rewrite Hlen by lia. pose proof (ceil_div_upper n m Hm). fold q in H.
      assert (n - (q - 1) * m <= m) by nia. lia.
Qed.

Lemma chunk_text_lengths_witness :
  exists chunks,
    chunk_text "abcdefg" 3 = Ok chunks
    /\ Forall (fun c => c <> EmptyString) chunks
    /\ (forall k c, chunks !! k = Some c -> S k < length chunks ->
                    String.length c = Z.to_nat 3)
    /\ (exists c, last chunks = Some c
                  /\ String.length c
                     = String.length "abcdefg"
                       - Z.to_nat 3 * (ceil_div (String.length "abcdefg") (Z.to_nat 3) - 1)).
Proof. apply (chunk_text_lengths "abcdefg" 3); [reflexivity | discriminate]. Defined.

End ChunkerContract.

(** ** Facts on blank strings *)

Section BlankFacts.
Import PyStr Obs.

Lemma not_rev_app (s acc : string) :
  not_ (String.rev_app s acc) = not_ s && not_ acc.
Proof.
  revert acc. induction s as [|c s IH]; intros acc; simpl; [reflexivity|].
  rewrite IH. simpl. apply andb_false_r.
Qed.

Lemma all_space_rev_app (s acc : string) :
  all_space (String.rev_app s acc) = all_space s && all_space acc.
Proof.
  revert acc. induction s as [|c s IH]; intros acc; simpl; [reflexivity|].
  rewrite IH. simpl. destruct (isspace c), (all_space s); reflexivity.
Qed.

Lemma not_lstrip (s : string) : not_ (lstrip s) = all_space s.
Proof.
  induction s as [|c s IH]; simpl; [reflexivity|].
  destruct (isspace c); [exact IH | reflexivity].
Qed.

Lemma all_space_lstrip (s : string) : all_space (lstrip s) = all_space s.
Proof.
  induction s as [|c s IH]; simpl; [reflexivity|].
  destruct (isspace c) eqn:Hc; [exact IH | simpl; now rewrite Hc].
Qed.

(** [not s.strip()] holds exactly for the strings made of whitespace only. *)
Lemma blank_all_space (s : string) : blank s = all_space s.
Proof.
  unfold blank, strip, rstrip, String.rev.
  rewrite not_rev_app, andb_true_r, not_lstrip.
  rewrite all_space_rev_app, andb_true_r. apply all_space_lstrip.
Qed.

Lemma no_space_take (n : nat) (s : string) :
  no_space s = true -> no_space (take_chars n s) = true.
Proof.
  revert s. induction n as [|n IH]; intros [|c s]; simpl; try reflexivity.
  intros H. apply andb_true_iff in H as [-> H]. simpl. now apply IH.
Qed.

Lemma no_space_drop (n : nat) (s : string) :
  no_space s = true -> no_space (drop_chars n s) = true.
Proof.
  revert s. induction n as [|n IH]; intros [|c s]; simpl; try reflexivity; try tauto.
  intros H. apply andb_true_iff in H as [_ H]. now apply IH.
Qed.

Lemma no_space_not_blank (s : string) :
  no_space s = true -> s <> EmptyString -> blank s = false.
Proof.
  rewrite blank_all_space. destruct s as [|c s]; [congruence|]. simpl.
  intros H _. apply andb_true_iff in H as [H _].
  now destruct (isspace c).
Qed.

End BlankFacts.

(** ** Facts on the embedding loop *)

Section EmbedLoop.
Import PyStr Chunker Backend Obs.

Lemma upserted_app (a b : history) : upserted (a ++ b) = upserted a ++ upserted b.
Proof.
  induction a as [|ev a IH]; simpl; [reflexivity|].
  destruct ev; try exact IH. now rewrite IH, app_assoc.
Qed.

Lemma upserted_embeddings {A : Type} (f : A -> string) (l : list A) :
  upserted (map (fun x => EmbeddingsCreate "text-embedding-3-small" (f x)) l) = [].
Proof. induction l; simpl; auto. Qed.

Lemma enumerate_from_fst {A : Type} (k : nat) (l : list A) :
  map fst (enumerate_from k l) = seq k (length l).
Proof.
  revert k. induction l as [|x l IH]; intros k; simpl; [reflexivity|].
  now rewrite IH.
Qed.

Lemma enumerate_from_snd {A : Type} (k : nat) (l : list A) :
  map snd (enumerate_from k l) = l.
Proof.
  revert k. induction l as [|x l IH]; intros k; simpl; [reflexivity|].
  now rewrite IH.
Qed.

Lemma enumerate_from_lookup {A : Type} (k i : nat) (l : list A) (x : A) :
  l !! i = Some x -> In (k + i, x) (enumerate_from k l).
Proof.
  revert k i. induction l as [|y l IH]; intros k [|i]; simpl; try discriminate.
  - intros [= ->]. left. f_equal. lia.
  - intros H. right. replace (k + S i) with (S k + i) by lia. now apply IH.
Qed.

Lemma enumerate_from_In {A : Type} (k i : nat) (l : list A) (x : A) :
  In (i, x) (enumerate_from k l) -> k <= i /\ l !! (i - k) = Some x.
Proof.
  revert k. induction l as [|y l IH]; intros k; simpl; [tauto|].
  intros [[= <- <-]|H].
  - split; [lia|]. now rewrite Nat.sub_diag.
  - apply IH in H as [Hle H]. split; [lia|].
    replace (i - k) with (S (i - S k)) by lia. exact H.
Qed.

(** The loop keeps the chunks that are not blank, asks one embedding for
    each, in order, and appends one record for each. *)
Lemma embed_chunks_ok (W : services) (file_id file_name : string)
    (ichunks : list (nat * string)) (acc vectors : list vector) (h h' : history) :
  embed_chunks W file_id file_name ichunks acc h = (Ok vectors, h') ->
  let kept := List.filter (fun ic => negb (blank ic.2)) ichunks in
  exists embs,
    length embs = length kept
    /\ vectors = acc ++ zip_with (fun ic emb => chunk_vector file_id file_name ic.1 ic.2 emb)
                                 kept embs
    /\ h' = h ++ map (fun ic => EmbeddingsCreate "text-embedding-3-small" ic.2) kept.
Proof.
  revert acc h. induction ichunks as [|[i chunk] rest IH]; intros acc h; simpl.
  - intros [= <- <-]. exists []. now rewrite !app_nil_r.
  - fold (blank chunk). destruct (blank chunk) eqn:Hb; simpl.
    + apply IH.
    + unfold bind, get_embedding, call.
      destruct (embeddings_create W h _ chunk) as [emb|e]; [|discriminate].
      intros H. apply IH in H as (embs & Hlen & -> & ->).
      exists (emb :: embs). simpl. rewrite Hlen, <- !app_assoc. auto.
Qed.

Lemma embed_chunks_all_blank (W : services) (file_id file_name : string)
    (ichunks : list (nat * string)) (acc : list vector) (h : history) :
  Forall (fun ic => blank ic.2 = true) ichunks ->
  embed_chunks W file_id file_name ichunks acc h = (Ok acc, h).
Proof.
  induction 1 as [|[i chunk] rest Hb _ IH]; simpl; [reflexivity|].
  simpl in Hb. fold (blank chunk). now rewrite Hb.
Qed.

Lemma nonblank_positions_sublist (chunks : list string) :
  sublist (nonblank_positions chunks) (seq 0 (length chunks)).
Proof.
  unfold nonblank_positions, kept_chunks, enumerate.
  rewrite <- (enumerate_from_fst 0 chunks).
  generalize (enumerate_from 0 chunks). intros l.
  induction l as [|ic l IH]; simpl; [constructor|].
  destruct (negb (blank ic.2)); simpl; now constructor.
Qed.

Lemma nonblank_positions_spec (chunks : list string) (i : nat) :
  In i (nonblank_positions chunks)
  <-> exists c, chunks !! i = Some c /\ blank c = false.
Proof.
  unfold nonblank_positions, kept_chunks, enumerate. rewrite in_map_iff. split.
  - intros ([j c] & <- & H). apply filter_In in H as [H Hb].
    apply enumerate_from_In in H as [_ H]. rewrite Nat.sub_0_r in H.
    exists c. split; [exact H|]. simpl in Hb. now destruct (blank c).
  - intros (c & H & Hb). exists (i, c). split; [reflexivity|].
    apply filter_In. split; [apply (enumerate_from_lookup 0), H|].
    simpl. now rewrite Hb.
Qed.

Lemma kept_chunks_all (chunks : list string) :
  Forall (fun c => blank c = false) chunks -> kept_chunks chunks = enumerate chunks.
Proof.
  unfold kept_chunks, enumerate. intros H. generalize 0.
  induction H as [|c l Hc _ IH]; intros k; simpl; [reflexivity|].
  rewrite Hc. simpl. now rewrite IH.
Qed.

Lemma nonblank_positions_all (chunks : list string) :
  Forall (fun c => blank c = false) chunks ->
  nonblank_positions chunks = seq 0 (length chunks).
Proof.
  intros H. unfold nonblank_positions. rewrite kept_chunks_all by exact H.
  apply enumerate_from_fst.
Qed.

Lemma kept_chunks_none (chunks : list string) :
  Forall (fun c => blank c = true) chunks -> kept_chunks chunks = [].
Proof.
  unfold kept_chunks, enumerate. intros H. generalize 0.
  induction H as [|c l Hc _ IH]; intros k; simpl; [reflexivity|].
  rewrite Hc. simpl. apply IH.
Qed.

End EmbedLoop.

(** ** Facts on one iteration of the upload loop *)

Section UploadOne.
Import PyStr Chunker Backend Obs.

Lemma bind_ok {A B : Type} (m : io A) (k : A -> io B) (h h' : history) (b : B) :
  bind m k h = (Ok b, h') ->
  exists a h1, m h = (Ok a, h1) /\ k a h1 = (Ok b, h').
Proof.
  unfold bind. destruct (m h) as [[a|e] h1]; [eauto | discriminate].
Qed.

Lemma lift_ok {A : Type} (o : outcome A) (h h' : history) (a : A) :
  lift o h = (Ok a, h') -> o = Ok a /\ h' = h.
Proof. unfold lift. now intros [= -> ->]. Qed.

Lemma upserted_bookkeeping (evs : history) :
  Forall (fun ev => is_bookkeeping ev = true) evs -> upserted evs = [].
Proof.
  induction 1 as [|ev evs Hev _ IH]; simpl; [reflexivity|].
  destruct ev; try discriminate; exact IH.
Qed.

Lemma upserted_upsert_calls (vectors : list vector) :
  upserted (upsert_calls vectors) = vectors.
Proof. destruct vectors; simpl; [reflexivity|]. now rewrite app_nil_r. Qed.

(** Step 5 only adds the table insert and, when it fails with an
    [Exception], the line that reports it. *)
Lemma insert_document_events (W : services) (file_id file_name path : string)
    (h h' : history) (r : outcome unit) :
  insert_document W file_id file_name path h = (r, h') ->
  exists tail, h' = h ++ tail /\ Forall (fun ev => is_bookkeeping ev = true) tail.
Proof.
  unfold insert_document, try_except_Exception, call, print.
  destruct (table_insert W h _ _) as [[]|e].
  - intros [= <- <-]. eexists. split; [reflexivity|]. repeat constructor.
  - destruct (exn_is_Exception e); intros [= <- <-].
    + rewrite <- app_assoc. eexists. split; [reflexivity|]. repeat constructor.
    + eexists. split; [reflexivity|]. repeat constructor.
Qed.

(** Step 5 succeeds unless the insert raises something that is not an
    [Exception]. *)
Lemma insert_document_ok (W : services) (file_id file_name path : string)
    (h : history) :
  (forall e, table_insert W h "documents" (document_row file_id file_name path) = Raise e ->
             exn_is_Exception e = true) ->
  exists h', insert_document W file_id file_name path h = (Ok tt, h').
Proof.
  intros Hcatch. unfold insert_document, try_except_Exception, call, print.
  destruct (table_insert W h _ _) as [[]|e] eqn:Hins; [eauto|].
  rewrite (Hcatch e eq_refl). eauto.
Qed.

(** A successful iteration, read backwards: which calls succeeded, what
    the summary is, and which events were added. *)
Lemma upload_one_ok (W : services) (file : upload_file) (h h' : history)
    (doc : doc_summary) :
  upload_one W file h = (Ok doc, h') ->
  let file_id := uuid4 W h in
  let path := file_id +:+ "/" +:+ filename file in
  exists res text chunks embs tail,
    storage_upload W h (SUPABASE_BUCKET W) path (content file) = Ok res
    /\ extract_text_from_pdf_bytes W (content file) = Ok text
    /\ chunk_text text 1000 = Ok chunks
    /\ length embs = length (kept_chunks chunks)
    /\ doc = DocSummary file_id (filename file) (length chunks)
    /\ Forall (fun ev => is_bookkeeping ev = true) tail
    /\ h' = h ++ [StorageUpload (SUPABASE_BUCKET W) path (content file);
                  Stdout ("Supabase upload response: " +:+ res)]
              ++ map (fun ic => EmbeddingsCreate "text-embedding-3-small" ic.2)
                     (kept_chunks chunks)
              ++ upsert_calls
                   (zip_with (fun ic emb => chunk_vector file_id (filename file) ic.1 ic.2 emb)
                             (kept_chunks chunks) embs)
              ++ tail.
Proof.
  intros Hrun file_id path. unfold upload_one in Hrun.
  apply bind_ok in Hrun as (fid & h0 & [= <- <-] & Hrun).
  fold file_id in Hrun. fold path in Hrun.
  apply bind_ok in Hrun as (res & h1 & Hsto & Hrun).
  apply bind_ok in Hrun as ([] & h2 & [= <-] & Hrun).
  apply bind_ok in Hrun as (text & ? & [Htext ->]%lift_ok & Hrun).
  apply bind_ok in Hrun as (chunks & ? & [Hchunks ->]%lift_ok & Hrun).
  apply bind_ok in Hrun as (vectors & h3 & Hemb & Hrun).
  apply bind_ok in Hrun as ([] & h4 & Hups & Hrun).
  apply bind_ok in Hrun as ([] & h5 & Hins & [= <- <-]).
  unfold call in Hsto. injection Hsto as Hsto <-.
  apply embed_chunks_ok in Hemb as (embs & Hlen & Hvs & Hh3). simpl in Hvs.
  fold (kept_chunks chunks) in Hlen, Hvs, Hh3.
  assert (h4 = h3 ++ upsert_calls vectors) as ->.
  { destruct vectors; simpl in Hups |- *.
    - injection Hups as <-. now rewrite app_nil_r.
    - unfold call in Hups. now injection Hups as _ <-. }
  apply insert_document_events in Hins as (tail & -> & Htail).
  exists res, text, chunks, embs, tail. subst vectors h3.
  rewrite <- !app_assoc. simpl. auto 10.
Qed.

End UploadOne.

(** ** Facts on the records of one document *)

Section Records.
Import PyStr Chunker Backend Obs.

Lemma chunk_metadata_file_id (fid fname : string) (i : nat) (chunk : string) :
  chunk_metadata fid fname i chunk !! "file_id" = Some (MdStr fid).
Proof. unfold chunk_metadata. by simplify_map_eq. Qed.

Lemma chunk_metadata_file_name (fid fname : string) (i : nat) (chunk : string) :
  chunk_metadata fid fname i chunk !! "file_name" = Some (MdStr fname).
Proof. unfold chunk_metadata. by simplify_map_eq. Qed.

Lemma chunk_metadata_chunk_index (fid fname : string) (i : nat) (chunk : string) :
  chunk_metadata fid fname i chunk !! "chunk_index" = Some (MdInt (Z.of_nat i)).
Proof. unfold chunk_metadata. by simplify_map_eq. Qed.

Lemma chunk_metadata_text (fid fname : string) (i : nat) (chunk : string) :
  chunk_metadata fid fname i chunk !! "text" = Some (MdStr chunk).
Proof. unfold chunk_metadata. by simplify_map_eq. Qed.

Lemma map_zip_with_l {A B C D : Type} (f : A -> B -> C) (g : C -> D) (g' : A -> D)
    (l : list A) (k : list B) :
  (forall a b, g (f a b) = g' a) -> length k = length l ->
  map g (zip_with f l k) = map g' l.
Proof.
  intros Hg. revert k. induction l as [|a l IH]; intros [|b k]; simpl;
    try discriminate; [reflexivity|].
  intros [= Hlen]. now rewrite Hg, IH.
Qed.

Lemma zip_with_In_l {A B C : Type} (f : A -> B -> C) (l : list A) (k : list B) (a : A) :
  length k = length l -> In a l -> exists b, In (f a b) (zip_with f l k).
Proof.
  revert k. induction l as [|a' l IH]; intros [|b k]; simpl; try discriminate; [tauto|].
  intros [= Hlen] [->|Hin]; [eauto|].
  destruct (IH k Hlen Hin) as (b' & Hb'). eauto.
Qed.

Lemma kept_chunks_snd (chunks : list string) :
  map snd (kept_chunks chunks) = List.filter (fun c => negb (blank c)) chunks.
Proof.
  unfold kept_chunks, enumerate. generalize 0.
  induction chunks as [|c l IH]; intros k; simpl; [reflexivity|].
  destruct (negb (blank c)); simpl; now rewrite IH.
Qed.

(** A successful iteration, by what it gave to the index. *)
Lemma upload_one_upserted (W : services) (file : upload_file) (h h' : history)
    (doc : doc_summary) :
  upload_one W file h = (Ok doc, h') ->
  exists text evs embs,
    extract_text_from_pdf_bytes W (content file) = Ok text
    /\ chunk_text text 1000 = Ok (chunks_of W file)
    /\ doc = DocSummary (uuid4 W h) (filename file) (length (chunks_of W file))
    /\ h' = h ++ evs
    /\ length embs = length (kept_chunks (chunks_of W file))
    /\ upserted evs
       = zip_with (fun ic emb => chunk_vector (uuid4 W h) (filename file) ic.1 ic.2 emb)
                  (kept_chunks (chunks_of W file)) embs.
Proof.
  intros Hrun.
  apply upload_one_ok in Hrun
    as (res & text & chunks & embs & tail & _ & Htext & Hchunks & Hlen & -> & Htail & ->).
  assert (Hof : chunks_of W file = chunks)
    by (unfold chunks_of; now rewrite Htext, Hchunks).
  rewrite Hof. exists text. eexists. exists embs.
  repeat split; try eassumption; try reflexivity.
  rewrite !upserted_app, upserted_embeddings, upserted_upsert_calls.
  rewrite (upserted_bookkeeping tail Htail). simpl. now rewrite app_nil_r.
Qed.

End Records.

(** ** Facts on the loop over the files *)

Section UploadLoop.
Import PyStr Chunker Backend Obs.

Lemma upload_loop_app (W : services) (l1 l2 : list upload_file)
    (acc : list doc_summary) (h : history) :
  upload_loop W (l1 ++ l2) acc h
  = match upload_loop W l1 acc h with
    | (Ok acc', h1) => upload_loop W l2 acc' h1
    | (Raise e, h1) => (Raise e, h1)
    end.
Proof.
  revert acc h. induction l1 as [|f l1 IH]; intros acc h; simpl; [reflexivity|].
  unfold bind. destruct (upload_one W f h) as [[doc|e] h1]; [apply IH | reflexivity].
Qed.

Lemma upload_one_storage_fails (W : services) (file : upload_file) (h : history) (e : exn) :
  let file_id := uuid4 W h in
  let path := file_id +:+ "/" +:+ filename file in
  storage_upload W h (SUPABASE_BUCKET W) path (content file) = Raise e ->
  upload_one W file h
  = (Raise e, h ++ [StorageUpload (SUPABASE_BUCKET W) path (content file)]).
Proof.
  intros file_id path Hsto. unfold upload_one, bind, call. fold file_id. fold path.
  now rewrite Hsto.
Qed.

Lemma upload_one_extraction_fails (W : services) (file : upload_file) (h : history)
    (res : string) (e : exn) :
  let file_id := uuid4 W h in
  let path := file_id +:+ "/" +:+ filename file in
  storage_upload W h (SUPABASE_BUCKET W) path (content file) = Ok res ->
  extract_text_from_pdf_bytes W (content file) = Raise e ->
  upload_one W file h
  = (Raise e, h ++ [StorageUpload (SUPABASE_BUCKET W) path (content file);
                    Stdout ("Supabase upload response: " +:+ res)]).
Proof.
  intros file_id path Hsto Hext. unfold upload_one, bind, call, print, lift.
  fold file_id. fold path. rewrite Hsto, Hext. now rewrite <- app_assoc.
Qed.

Lemma upload_pdfs_aborts (W : services) (before after : list upload_file)
    (file : upload_file) (h h1 h2 : history) (docs : list doc_summary) (e : exn) :
  upload_loop W before [] h = (Ok docs, h1) ->
  upload_one W file h1 = (Raise e, h2) ->
  upload_pdfs W (before ++ file :: after) h = (Raise e, h2).
Proof.
  intros Hbefore Hone. unfold upload_pdfs, bind.
  rewrite upload_loop_app, Hbefore. simpl. unfold bind. now rewrite Hone.
Qed.

End UploadLoop.

(** ** Ingestion: what a failure does to the batch *)

Section BatchFailures.
Import PyStr Chunker Backend Obs Demo.

(** C1, as stated, fails: the first file cannot be parsed, the second can,
    and the whole upload raises; nothing of the second file is embedded or
    upserted and no summary list is returned. *)
Lemma broken_then_good_aborts :
  extract_text_from_pdf_bytes W0 (content broken) = Raise pdf_error
  /\ extract_text_from_pdf_bytes W0 (content good) = Ok "hello world"
  /\ upload_pdfs W0 [broken; good] []
     = (Raise pdf_error,
        [StorageUpload "pdfs" "doc0/broken.pdf" [];
         Stdout "Supabase upload response: ok"]).
Proof. repeat split; vm_compute; reflexivity. Qed.

(** C1, amended.  When the extraction of a document raises, [upload_pdfs]
    raises that same error to the caller: no summary list is returned and
    no file after the failing one is touched.  What the files before it
    caused (their storage writes, embeddings and upserts, here the history
    [h1]) stays done. *)
Theorem extraction_failure_aborts_upload (W : services)
    (before after : list upload_file) (file : upload_file)
    (h h1 : history) (docs : list doc_summary) (res : string) (e : exn) :
  let file_id := uuid4 W h1 in
  let path := file_id +:+ "/" +:+ filename file in
  upload_loop W before [] h = (Ok docs, h1) ->
  storage_upload W h1 (SUPABASE_BUCKET W) path (content file) = Ok res ->
  extract_text_from_pdf_bytes W (content file) = Raise e ->
  upload_pdfs W (before ++ file :: after) h
  = (Raise e, h1 ++ [StorageUpload (SUPABASE_BUCKET W) path (content file);
                     Stdout ("Supabase upload response: " +:+ res)]).
Proof.
  intros file_id path Hbefore Hsto Hext.
  eapply upload_pdfs_aborts; [exact Hbefore|].
  now apply upload_one_extraction_fails.
Qed.

Lemma extraction_failure_aborts_upload_witness :
  let h1 := (upload_loop W0 [good] [] []).2 in
  upload_pdfs W0 ([good] ++ broken :: [good]) []
  = (Raise pdf_error,
     h1 ++ [StorageUpload (SUPABASE_BUCKET W0)
              (uuid4 W0 h1 +:+ "/" +:+ filename broken) (content broken);
            Stdout ("Supabase upload response: " +:+ "ok")]).
Proof.
  apply (extraction_failure_aborts_upload W0 [good] [good] broken []
           (upload_loop W0 [good] [] []).2 [DocSummary "doc0" "good.pdf" 1]
           "ok" pdf_error);
    vm_compute; reflexivity.
Defined.

(** C3, as stated, fails: when the storage write raises, the upload raises
    with it, and the document is neither extracted, embedded nor upserted. *)
Lemma storage_down_aborts :
  upload_pdfs W_storage_down [good] []
  = (Raise storage_error,
     [StorageUpload "pdfs" "doc0/good.pdf" (list_byte_of_string "hello world")]).
Proof. vm_compute. reflexivity. Qed.

(** C3, amended.  When the storage write of a document raises, the error
    reaches the caller of [upload_pdfs]: the history ends with the failed
    storage call, so the document is not extracted, chunked, embedded or
    upserted, and no file after it is touched. *)
Theorem storage_failure_propagates (W : services)
    (before after : list upload_file) (file : upload_file)
    (h h1 : history) (docs : list doc_summary) (e : exn) :
  let file_id := uuid4 W h1 in
  let path := file_id +:+ "/" +:+ filename file in
  upload_loop W before [] h = (Ok docs, h1) ->
  storage_upload W h1 (SUPABASE_BUCKET W) path (content file) = Raise e ->
  upload_pdfs W (before ++ file :: after) h
  = (Raise e, h1 ++ [StorageUpload (SUPABASE_BUCKET W) path (content file)]).
Proof.
  intros file_id path Hbefore Hsto.
  eapply upload_pdfs_aborts; [exact Hbefore|].
  now apply upload_one_storage_fails.
Qed.

Lemma storage_failure_propagates_witness :
  upload_pdfs W_storage_down ([] ++ good :: [good]) []
  = (Raise storage_error,
     [] ++ [StorageUpload "pdfs" "doc0/good.pdf" (content good)]).
Proof.
  apply (storage_failure_propagates W_storage_down [] [good] good [] [] [] storage_error);
    vm_compute; reflexivity.
Defined.

(** The table insert of step 5 is the one guarded call: an [Exception]
    raised there is printed and the document still gets its summary. *)
Lemma insert_failure_is_caught (W : services) (file_id file_name path : string)
    (h : history) (e : exn) :
  table_insert W h "documents" (document_row file_id file_name path) = Raise e ->
  exn_is_Exception e = true ->
  insert_document W file_id file_name path h
  = (Ok tt,
     h ++ [TableInsert "documents" (document_row file_id file_name path);
           Stdout ("Error inserting into Supabase documents table: " +:+ exn_msg e)]).
Proof.
  intros Hins He. unfold insert_document, try_except_Exception, call, print.
  rewrite Hins, He. now rewrite <- app_assoc.
Qed.

End BatchFailures.

(** ** Ingestion: the records and the summary of a document *)

Section DocumentRecords.
Import PyStr Chunker Backend Obs Demo.

(** C2, as stated, fails: the middle chunk of this document is blank, and
    the two records upserted carry the indices 0 and 2. *)
Lemma blank_chunk_leaves_gap :
  exists h,
    upload_pdfs W0 [gappy] [] = (Ok (UploadResponse "ok" [DocSummary "doc0" "gappy.pdf" 3]), h)
    /\ map vec_id (upserted h) = ["doc0_0"; "doc0_2"]
    /\ map vec_chunk_index (upserted h) = [Some (MdInt 0); Some (MdInt 2)].
Proof. eexists. repeat split; vm_compute; reflexivity. Qed.

(** C2, amended.  The chunk_index values of the records upserted for a
    document, in their ids and in their metadata, are the positions in the
    chunker's output of the chunks that are not blank, in increasing order
    and without repeats.  They are 0, 1, ..., N-1 for the N chunks of the
    chunker when no chunk is blank. *)
Theorem chunk_index_positions (W : services) (file : upload_file)
    (h h' : history) (doc : doc_summary) :
  upload_one W file h = (Ok doc, h') ->
  exists text evs,
    extract_text_from_pdf_bytes W (content file) = Ok text
    /\ chunk_text text 1000 = Ok (chunks_of W file)
    /\ h' = h ++ evs
    /\ map vec_chunk_index (upserted evs)
       = map (fun i => Some (MdInt (Z.of_nat i))) (nonblank_positions (chunks_of W file))
    /\ map vec_id (upserted evs)
       = map (fun i => sum_file_id doc +:+ "_" +:+ str_of_nat i)
             (nonblank_positions (chunks_of W file))
    /\ sublist (nonblank_positions (chunks_of W file))
               (seq 0 (length (chunks_of W file)))
    /\ (forall i, In i (nonblank_positions (chunks_of W file))
                  <-> exists c, chunks_of W file !! i = Some c /\ blank c = false)
    /\ (Forall (fun c => blank c = false) (chunks_of W file) ->
        nonblank_positions (chunks_of W file) = seq 0 (length (chunks_of W file))).
Proof.
  intros Hrun.
  apply upload_one_upserted in Hrun
    as (text & evs & embs & Htext & Hchunks & -> & -> & Hlen & Hups).
  exists text, evs. rewrite Hups. unfold nonblank_positions. rewrite !map_map.
  repeat split; try assumption.
  - apply map_zip_with_l; [|exact Hlen]. intros ic emb.
    apply chunk_metadata_chunk_index.
  - apply map_zip_with_l; [|exact Hlen]. reflexivity.
  - apply nonblank_positions_sublist.
  - apply nonblank_positions_spec.
  - apply nonblank_positions_spec.
  - apply nonblank_positions_all.
Qed.

Lemma chunk_index_positions_witness :
  exists text evs,
    extract_text_from_pdf_bytes W0 (content gappy) = Ok text
    /\ chunk_text text 1000 = Ok (chunks_of W0 gappy)
    /\ (upload_one W0 gappy []).2 = [] ++ evs
    /\ map vec_chunk_index (upserted evs)
       = map (fun i => Some (MdInt (Z.of_nat i))) (nonblank_positions (chunks_of W0 gappy))
    /\ map vec_id (upserted evs)
       = map (fun i => sum_file_id (DocSummary "doc0" "gappy.pdf" 3) +:+ "_" +:+ str_of_nat i)
             (nonblank_positions (chunks_of W0 gappy))
    /\ sublist (nonblank_positions (chunks_of W0 gappy))
               (seq 0 (length (chunks_of W0 gappy)))
    /\ (forall i, In i (nonblank_positions (chunks_of W0 gappy))
                  <-> exists c, chunks_of W0 gappy !! i = Some c /\ blank c = false)
    /\ (Forall (fun c => blank c = false) (chunks_of W0 gappy) ->
        nonblank_positions (chunks_of W0 gappy) = seq 0 (length (chunks_of W0 gappy))).
Proof.
  apply (chunk_index_positions W0 gappy [] (upload_one W0 gappy []).2
           (DocSummary "doc0" "gappy.pdf" 3)).
  vm_compute. reflexivity.
Defined.

Lemma upload_loop_ok (W : services) (files : list upload_file)
    (acc docs : list doc_summary) (h h' : history) :
  upload_loop W files acc h = (Ok docs, h') ->
  exists new evs,
    docs = acc ++ new
    /\ h' = h ++ evs
    /\ Forall2 (counts_all_chunks W) files new
    /\ map vec_text (upserted evs)
       = map (fun c => Some (MdStr c))
             (flat_map (fun f => List.filter (fun c => negb (blank c)) (chunks_of W f))
                       files).
Proof.
  revert acc h. induction files as [|file files IH]; intros acc h; simpl.
  - intros [= <- <-]. exists [], []. rewrite !app_nil_r. repeat split. constructor.
  - intros Hrun. apply bind_ok in Hrun as (doc & h1 & Hone & Hrest).
    apply upload_one_upserted in Hone
      as (text & evs1 & embs & Htext & Hchunks & -> & -> & Hlen & Hups).
    apply IH in Hrest as (new & evs2 & -> & -> & Hall & Htexts).
    eexists (_ :: new), (evs1 ++ evs2). rewrite <- !app_assoc. simpl.
    repeat split.
    + constructor; [|exact Hall]. repeat split. eauto.
    + rewrite upserted_app, !map_app, Htexts, Hups. f_equal.
      rewrite <- kept_chunks_snd, map_map.
      apply map_zip_with_l; [|exact Hlen]. intros ic emb. apply chunk_metadata_text.
Qed.

Example gappy_counts :
  length (chunks_of W0 gappy) = 3
  /\ length (List.filter (fun c => negb (blank c)) (chunks_of W0 gappy)) = 2.
Proof. split; vm_compute; reflexivity. Qed.

Lemma slice_not_blank (text : string) (lo hi : nat) :
  no_space text = true -> lo < hi -> lo < String.length text ->
  blank (slice text lo hi) = false.
Proof.
  intros Hns Hlo Hlen. apply no_space_not_blank.
  - unfold slice. rewrite substring_take_drop.
    now apply no_space_take, no_space_drop.
  - intros Hempty. apply (f_equal String.length) in Hempty.
    rewrite length_slice in Hempty. simpl in Hempty. lia.
Qed.

(** 2500 characters, none of them whitespace, make three chunks, none blank. *)
Lemma chunks_of_2500 (text : string) :
  String.length text = 2500 -> no_space text = true ->
  exists c0 c1 c2,
    chunk_text text 1000 = Ok [c0; c1; c2]
    /\ blank c0 = false /\ blank c1 = false /\ blank c2 = false.
Proof.
  intros Hlen Hns. rewrite chunk_text_slices by lia. rewrite Hlen.
  replace (ceil_div 2500 (Z.to_nat 1000)) with 3 by (vm_compute; reflexivity).
  cbn [seq map]. do 3 eexists. split; [reflexivity|].
  repeat split; apply slice_not_blank; try assumption; lia.
Qed.

(** C8.  For each chunk of a document that is not blank, a record was
    upserted whose id is the document id, an underscore and the chunk's
    index, and whose metadata holds the document id, the file name, the
    index and the chunk's text.  A text of 2500 characters, none of them
    whitespace, gives exactly the three records [_0], [_1], [_2]. *)
Theorem vector_record_shape (W : services) (file : upload_file)
    (h h' : history) (doc : doc_summary) :
  upload_one W file h = (Ok doc, h') ->
  exists text evs,
    extract_text_from_pdf_bytes W (content file) = Ok text
    /\ chunk_text text 1000 = Ok (chunks_of W file)
    /\ h' = h ++ evs
    /\ (forall i chunk,
          chunks_of W file !! i = Some chunk -> blank chunk = false ->
          exists v,
            In v (upserted evs)
            /\ vec_id v = sum_file_id doc +:+ "_" +:+ str_of_nat i
            /\ vec_metadata v !! "file_id" = Some (MdStr (sum_file_id doc))
            /\ vec_metadata v !! "file_name" = Some (MdStr (filename file))
            /\ vec_metadata v !! "chunk_index" = Some (MdInt (Z.of_nat i))
            /\ vec_metadata v !! "text" = Some (MdStr chunk))
    /\ (String.length text = 2500 -> no_space text = true ->
        map vec_id (upserted evs)
        = [sum_file_id doc +:+ "_0"; sum_file_id doc +:+ "_1"; sum_file_id doc +:+ "_2"]).
Proof.
  intros Hrun.
  apply upload_one_upserted in Hrun
    as (text & evs & embs & Htext & Hchunks & -> & -> & Hlen & Hups).
  exists text, evs. rewrite Hups. repeat split; try assumption.
  - intros i chunk Hi Hb.
    assert (Hin : In (i, chunk) (kept_chunks (chunks_of W file))).
    { apply filter_In. split; [apply (enumerate_from_lookup 0), Hi|].
      simpl. now rewrite Hb. }
    destruct (zip_with_In_l
                (fun ic emb => chunk_vector (uuid4 W h) (filename file) ic.1 ic.2 emb)
                _ embs _ Hlen Hin) as (emb & Hv).
    eexists. split; [exact Hv|]. simpl.
    split; [reflexivity|].
    split; [apply chunk_metadata_file_id|].
    split; [apply chunk_metadata_file_name|].
    split; [apply chunk_metadata_chunk_index | apply chunk_metadata_text].
  - intros H2500 Hns.
    destruct (chunks_of_2500 text H2500 Hns) as (c0 & c1 & c2 & Hthree & H0 & H1 & H2).
    rewrite Hthree in Hchunks. injection Hchunks as Hchunks.
    rewrite <- Hchunks in Hlen |- *.
    rewrite kept_chunks_all in Hlen |- * by (repeat constructor; assumption).
    destruct embs as [|e0 [|e1 [|e2 [|]]]]; try discriminate. reflexivity.
Qed.

Lemma vector_record_shape_witness :
  exists text evs,
    extract_text_from_pdf_bytes W0 (content long) = Ok text
    /\ chunk_text text 1000 = Ok (chunks_of W0 long)
    /\ (upload_one W0 long []).2 = [] ++ evs
    /\ (forall i chunk,
          chunks_of W0 long !! i = Some chunk -> blank chunk = false ->
          exists v,
            In v (upserted evs)
            /\ vec_id v = sum_file_id (DocSummary "doc0" "long.pdf" 3) +:+ "_" +:+ str_of_nat i
            /\ vec_metadata v !! "file_id"
               = Some (MdStr (sum_file_id (DocSummary "doc0" "long.pdf" 3)))
            /\ vec_metadata v !! "file_name" = Some (MdStr (filename long))
            /\ vec_metadata v !! "chunk_index" = Some (MdInt (Z.of_nat i))
            /\ vec_metadata v !! "text" = Some (MdStr chunk))
    /\ (String.length text = 2500 -> no_space text = true ->
        map vec_id (upserted evs)
        = [sum_file_id (DocSummary "doc0" "long.pdf" 3) +:+ "_0";
           sum_file_id (DocSummary "doc0" "long.pdf" 3) +:+ "_1";
           sum_file_id (DocSummary "doc0" "long.pdf" 3) +:+ "_2"]).
Proof.
  apply (vector_record_shape W0 long [] (upload_one W0 long []).2
           (DocSummary "doc0" "long.pdf" 3)).
  vm_compute. reflexivity.
Defined.

Example long_text_2500 :
  String.length long_text = 2500 /\ no_space long_text = true
  /\ map String.length (chunks_of W0 long) = [1000; 1000; 500].
Proof. repeat split; vm_compute; reflexivity. Qed.

(** C9.  When every chunk of a document is blank, and in particular when
    its text is empty, no embedding is asked, no record is built and
    [index.upsert] is not called; the iteration still succeeds and gives
    the document its summary entry. *)
Theorem blank_document_skips_upsert (W : services) (file : upload_file)
    (h : history) (res text : string) (chunks : list string) :
  let file_id := uuid4 W h in
  let path := file_id +:+ "/" +:+ filename file in
  let h2 := h ++ [StorageUpload (SUPABASE_BUCKET W) path (content file);
                  Stdout ("Supabase upload response: " +:+ res)] in
  storage_upload W h (SUPABASE_BUCKET W) path (content file) = Ok res ->
  extract_text_from_pdf_bytes W (content file) = Ok text ->
  chunk_text text 1000 = Ok chunks ->
  Forall (fun c => blank c = true) chunks ->
  (forall e, table_insert W h2 "documents" (document_row file_id (filename file) path)
             = Raise e -> exn_is_Exception e = true) ->
  exists tail,
    upload_one W file h
    = (Ok (DocSummary file_id (filename file) (length chunks)), h2 ++ tail)
    /\ Forall (fun ev => is_upsert ev = false /\ is_embedding ev = false)
              ([StorageUpload (SUPABASE_BUCKET W) path (content file);
                Stdout ("Supabase upload response: " +:+ res)] ++ tail)
    /\ upserted (h2 ++ tail) = upserted h.
Proof.
  intros file_id path h2 Hsto Hext Hchunks Hblank Hcatch.
  destruct (insert_document_ok W file_id (filename file) path h2 Hcatch) as (h5 & Hins).
  pose proof Hins as Hev.
  apply insert_document_events in Hev as (tail & -> & Htail).
  exists tail. split; [|split].
  - unfold upload_one, bind, call, print, lift. fold file_id. fold path.
    rewrite Hsto, Hext, Hchunks.
    rewrite embed_chunks_all_blank.
    2:{ apply Forall_forall. intros [i c] Hin%list_elem_of_In.
        apply enumerate_from_In in Hin as [_ Hin]. simpl.
        rewrite Forall_forall in Hblank. eapply Hblank, list_elem_of_lookup_2, Hin. }
    unfold ret. rewrite <- app_assoc. simpl. fold h2. now rewrite Hins.
  - repeat constructor. apply Forall_forall. intros ev Hev.
    rewrite Forall_forall in Htail. specialize (Htail ev Hev).
    destruct ev; try discriminate; auto.
  - unfold h2. rewrite !upserted_app, (upserted_bookkeeping tail Htail). simpl.
    now rewrite !app_nil_r.
Qed.

Lemma blank_document_skips_upsert_witness :
  exists tail,
    upload_one W0 spaces []
    = (Ok (DocSummary (uuid4 W0 []) (filename spaces) (length ["   "])),
       ([] ++ [StorageUpload (SUPABASE_BUCKET W0)
                 (uuid4 W0 [] +:+ "/" +:+ filename spaces) (content spaces);
               Stdout ("Supabase upload response: " +:+ "ok")]) ++ tail)
    /\ Forall (fun ev => is_upsert ev = false /\ is_embedding ev = false)
              ([StorageUpload (SUPABASE_BUCKET W0)
                  (uuid4 W0 [] +:+ "/" +:+ filename spaces) (content spaces);
                Stdout ("Supabase upload response: " +:+ "ok")] ++ tail)
    /\ upserted (([] ++ [StorageUpload (SUPABASE_BUCKET W0)
                           (uuid4 W0 [] +:+ "/" +:+ filename spaces) (content spaces);
                         Stdout ("Supabase upload response: " +:+ "ok")]) ++ tail)
       = upserted [].
Proof.
  apply (blank_document_skips_upsert W0 spaces [] "ok" "   " ["   "]).
  - reflexivity.
  - reflexivity.
  - reflexivity.
  - repeat constructor.
  - intros e. discriminate.
Defined.

End DocumentRecords.

(** ** Question answering: the context and the fallback *)

Section AskQuestion.
Import PyStr Chunker Backend Obs Demo.

Lemma join_strs_concat (sep : string) (l : list string) :
  join_strs sep l = String.concat sep l.
Proof.
  induction l as [|x l IH]; [reflexivity|].
  destruct l as [|y l]; [reflexivity|].
  change (x +:+ sep +:+ join_strs sep (y :: l) = x +:+ sep +:+ String.concat sep (y :: l)).
  now rewrite IH.
Qed.

Lemma str_items_from_MdStr (i : nat) (l : list string) :
  str_items_from i (map MdStr l) = Ok l.
Proof.
  revert i. induction l as [|x l IH]; intros i; simpl; [reflexivity|]. now rewrite IH.
Qed.

Lemma str_items_MdStr (l : list string) : str_items (map MdStr l) = Ok l.
Proof. apply str_items_from_MdStr. Qed.

Lemma match_text_str (m : query_match) :
  (forall md v, match_metadata m = Some md -> md !! "text" = Some v ->
                exists s, v = MdStr s) ->
  match_text m = MdStr (text_or_empty m).
Proof.
  unfold match_text, text_or_empty. intros Hstr.
  destruct (match_metadata m) as [md|]; simpl; [|now rewrite lookup_empty].
  destruct (md !! "text") as [v|] eqn:Hv; simpl; [|reflexivity].
  destruct (Hstr md v eq_refl Hv) as (s & ->). reflexivity.
Qed.

(** The context is the texts of the matches, in the order of the matches,
    joined by the separator. *)
Lemma build_context_texts (matches : list query_match) :
  texts_are_str matches ->
  build_context matches = Ok (String.concat separator (map text_or_empty matches)).
Proof.
  intros Hstr. unfold build_context, join. rewrite fold_left_snoc. simpl.
  replace (map match_text matches) with (map MdStr (map text_or_empty matches)).
  - now rewrite str_items_MdStr, join_strs_concat.
  - rewrite map_map. induction Hstr as [|m l Hm _ IH]; simpl; [reflexivity|].
    now rewrite IH, (match_text_str m Hm).
Qed.

Lemma all_space_app (s t : string) :
  all_space (s +:+ t) = all_space s && all_space t.
Proof.
  induction s as [|c s IH]; [reflexivity|].
  rewrite app_String. simpl. rewrite IH. now rewrite andb_assoc.
Qed.

(** With two matches or more the context holds the dashes of a separator,
    so it is never blank, whatever the texts are. *)
Lemma context_of_two_not_blank (m1 m2 : query_match) (rest : list query_match)
    (context : string) :
  build_context (m1 :: m2 :: rest) = Ok context -> blank context = false.
Proof.
  unfold build_context, join, str_items. rewrite fold_left_snoc. simpl.
  destruct (match_text m1) as [s1|]; [|discriminate].
  destruct (match_text m2) as [s2|]; [|discriminate].
  destruct (str_items_from _ _) as [l|]; [|discriminate].
  intros [= <-]. rewrite blank_all_space.
  change (all_space (s1 +:+ separator +:+ join_strs separator (s2 :: l)) = false).
  rewrite !all_space_app.
  replace (all_space separator) with false by (vm_compute; reflexivity).
  now rewrite andb_false_r.
Qed.




Example no_match_fallback :
  ask_question W0 "What is it?" []
  = (Ok fallback_answer,
     [EmbeddingsCreate "text-embedding-3-small" "What is it?"; IndexQuery [11%Z] 5 true]).
Proof. vm_compute. reflexivity. Qed.

(** Two matches without text do reach the chat completion service: their
    context is the separator alone, which [strip] leaves as three dashes. *)
Example two_textless_matches_reach_chat :
  build_context [without_text; without_metadata] = Ok separator
  /\ strip separator = "---"
  /\ exists messages,
       ask_question (W_matches [without_text; without_metadata]) "What is it?" []
       = (Ok "An answer.",
          [EmbeddingsCreate "text-embedding-3-small" "What is it?";
           IndexQuery [11%Z] 5 true;
           ChatCompletionsCreate "gpt-4o-mini" messages]).
Proof. repeat split. eexists. vm_compute. reflexivity. Qed.

(** C6.  The context given to the chat completion service is the texts of
    the matches joined by the separator, in the order the index returned
    them; a match without metadata or without a text field contributes the
    empty string.  Texts [A] then [B] give [A], the separator, [B]. *)
Theorem context_assembly (W : services) (question : string) (h : history)
    (q_emb : embedding) (matches : list query_match) :
  let h1 := h ++ [EmbeddingsCreate "text-embedding-3-small" question] in
  let h2 := h1 ++ [IndexQuery q_emb 5 true] in
  let context := String.concat separator (map text_or_empty matches) in
  let messages := [("system", system_prompt); ("user", user_prompt question context)] in
  embeddings_create W h "text-embedding-3-small" question = Ok q_emb ->
  index_query W h1 q_emb 5 true = Ok matches ->
  texts_are_str matches ->
  blank context = false ->
  build_context matches = Ok context
  /\ ask_question W question h
     = (chat_completions_create W h2 "gpt-4o-mini" messages,
        h2 ++ [ChatCompletionsCreate "gpt-4o-mini" messages])
  /\ build_context [with_text 9 "A"; with_text 8 "B"]
     = Ok ("A" +:+ nl +:+ nl +:+ "---" +:+ nl +:+ nl +:+ "B").
Proof.
  intros h1 h2 context messages Hemb Hquery Hstr Hblank.
  pose proof (build_context_texts matches Hstr) as Hctx. fold context in Hctx.
  split; [exact Hctx|]. split; [|reflexivity].
  unfold ask_question, bind, get_embedding, call, lift. rewrite Hemb.
  fold h1. rewrite Hquery, Hctx. fold (blank context). rewrite Hblank.
  unfold generate_answer, call, ret. fold messages. fold h2.
  now destruct (chat_completions_create W h2 "gpt-4o-mini" messages).
Qed.

Lemma context_assembly_witness :
  let matches := [with_text 9 "A"; without_text; with_text 8 "B"; without_metadata] in
  let h1 := [] ++ [EmbeddingsCreate "text-embedding-3-small" "What is it?"] in
  let h2 := h1 ++ [IndexQuery [11%Z] 5 true] in
  let context := String.concat separator (map text_or_empty matches) in
  let messages := [("system", system_prompt); ("user", user_prompt "What is it?" context)] in
  build_context matches = Ok context
  /\ ask_question (W_matches matches) "What is it?" []
     = (chat_completions_create (W_matches matches) h2 "gpt-4o-mini" messages,
        h2 ++ [ChatCompletionsCreate "gpt-4o-mini" messages])
  /\ build_context [with_text 9 "A"; with_text 8 "B"]
     = Ok ("A" +:+ nl +:+ nl +:+ "---" +:+ nl +:+ nl +:+ "B").
Proof.
  intros matches.
  apply (context_assembly (W_matches matches) "What is it?" [] [11%Z] matches).
  - reflexivity.
  - reflexivity.
  - unfold matches, texts_are_str. repeat constructor; simpl; intros md v [= <-].
    + rewrite lookup_insert_eq. intros [= <-]. eauto.
    + rewrite lookup_empty. discriminate.
    + rewrite lookup_insert_eq. intros [= <-]. eauto.
  - vm_compute. reflexivity.
Defined.

Example context_with_missing_text :
  build_context [with_text 9 "A"; without_text; with_text 8 "B"; without_metadata]
  = Ok ("A" +:+ separator +:+ EmptyString +:+ separator +:+ "B" +:+ separator +:+ EmptyString).
Proof. vm_compute. reflexivity. Qed.

(** A text field that is not a [str] makes [join] raise, with the index of
    the item in the message. *)
Example context_with_number :
  build_context [QueryMatch "id" 0 (Some (<["text" := MdInt 3]> ∅))]
  = Raise (TypeError "sequence item 0: expected str instance, int found")
  /\ build_context [with_text 9 "A"; QueryMatch "id" 0 (Some (<["text" := MdInt 3]> ∅))]
     = Raise (TypeError "sequence item 1: expected str instance, int found").
Proof. split; vm_compute; reflexivity. Qed.

End AskQuestion.

(** ** Text extraction: the pages in order *)

Section Extraction.
Import PyStr Chunker Backend Obs Demo Trace Outage.

Lemma extract_pages_all_ok (texts : list (option string)) (acc : string) :
  extract_pages (map Ok texts) acc
  = Ok (acc +:+ cat (map (default EmptyString) texts)).
Proof.
  revert acc. induction texts as [|t texts IH]; intros acc; simpl.
  - now rewrite app_empty_r.
  - rewrite IH. unfold cat. simpl. now rewrite app_assoc_str.
Qed.

Lemma extract_pages_first_failure (texts : list (option string)) (e : exn)
    (rest : list (outcome (option string))) (acc : string) :
  extract_pages (map Ok texts ++ Raise e :: rest) acc = Raise e.
Proof.
  revert acc. induction texts as [|t texts IH]; intros acc; simpl;
    [reflexivity | apply IH].
Qed.

(** X1.  When every page can be read, the extracted text is the texts of the
    pages one after the other, in page order, nothing in between; a page
    whose [extract_text()] gives [None] adds nothing. *)
Theorem extract_text_concatenates_pages (W : services) (file_bytes : list Byte.byte)
    (texts : list (option string)) :
  PdfReader W file_bytes = Ok (map Ok texts) ->
  extract_text_from_pdf_bytes W file_bytes
  = Ok (cat (map (default EmptyString) texts)).
Proof.
  intros Hread. unfold extract_text_from_pdf_bytes. rewrite Hread.
  apply extract_pages_all_ok.
Qed.

Lemma extract_text_concatenates_pages_witness :
  extract_text_from_pdf_bytes (W_pages (map Ok [Some "ab"; None; Some "cd"])) []
  = Ok (cat (map (default EmptyString) [Some "ab"; None; Some "cd"])).
Proof.
  apply (extract_text_concatenates_pages
           (W_pages (map Ok [Some "ab"; None; Some "cd"])) []
           [Some "ab"; None; Some "cd"]).
  reflexivity.
Defined.

(** X2.  The first page whose [extract_text()] raises makes the whole extraction
    raise that error: the text of the pages before it is lost and the pages
    after it are not read. *)
Theorem extract_text_page_failure (W : services) (file_bytes : list Byte.byte)
    (texts : list (option string)) (e : exn) (rest : list (outcome (option string))) :
  PdfReader W file_bytes = Ok (map Ok texts ++ Raise e :: rest) ->
  extract_text_from_pdf_bytes W file_bytes = Raise e.
Proof.
  intros Hread. unfold extract_text_from_pdf_bytes. rewrite Hread.
  apply extract_pages_first_failure.
Qed.

Lemma extract_text_page_failure_witness :
  extract_text_from_pdf_bytes
    (W_pages (map Ok [Some "ab"] ++ Raise pdf_error :: [Ok (Some "cd")])) []
  = Raise pdf_error.
Proof.
  apply (extract_text_page_failure
           (W_pages (map Ok [Some "ab"] ++ Raise pdf_error :: [Ok (Some "cd")])) []
           [Some "ab"] pdf_error [Ok (Some "cd")]).
  reflexivity.
Defined.

End Extraction.

(** ** The chunker: offsets, edge cases and composition *)

Section ChunkerMore.
Import PyStr Chunker Backend Obs Demo Trace.

(** X3.  A step of zero makes [range] raise, whatever the text, and a negative
    step gives no chunk at all: the text is dropped. *)
Theorem chunk_text_nonpositive (text : string) (max_chars : Z) :
  (max_chars <= 0)%Z ->
  chunk_text text max_chars
  = if (max_chars =? 0)%Z
    then Raise (ValueError "range() arg 3 must not be zero")
    else Ok [].
Proof.
  intros HM. unfold chunk_text, range0.
  destruct (Z.eqb_spec max_chars 0) as [_|Hne]; [reflexivity|].
  destruct (Z.ltb_spec max_chars 0) as [_|?]; [reflexivity | lia].
Qed.

Lemma chunk_text_nonpositive_witness :
  chunk_text "abc" (-4)
  = if (-4 =? 0)%Z
    then Raise (ValueError "range() arg 3 must not be zero")
    else Ok [].
Proof. apply (chunk_text_nonpositive "abc" (-4)). lia. Defined.

Lemma chunk_text_chunk_list (text : string) (max_chars : Z) :
  (0 < max_chars)%Z ->
  chunk_text text max_chars = Ok (chunk_list text (Z.to_nat max_chars)).
Proof. apply chunk_text_slices. Qed.

Lemma lt_ceil_div (n m k : nat) : 0 < m -> k < ceil_div n m <-> k * m < n.
Proof.
  intros Hm. split; intros H.
  - destruct (Nat.lt_ge_cases (k * m) n) as [|Hge]; [assumption|].
    pose proof (ceil_div_least n m k Hm Hge). lia.
  - destruct (Nat.lt_ge_cases k (ceil_div n m)) as [|Hge]; [assumption|].
    pose proof (ceil_div_upper n m Hm). nia.
Qed.

(** X4.  The chunk at index [k] starts at offset [k * max_chars] of the text:
    it is [text[k*max_chars : (k+1)*max_chars]], and there is a chunk at
    index [k] exactly when that offset is inside the text. *)
Theorem chunk_text_lookup (text : string) (max_chars : Z) (k : nat) :
  (0 < max_chars)%Z ->
  exists chunks,
    chunk_text text max_chars = Ok chunks
    /\ chunks !! k
       = if k * Z.to_nat max_chars <? String.length text
         then Some (slice text (k * Z.to_nat max_chars)
                      (k * Z.to_nat max_chars + Z.to_nat max_chars))
         else None.
Proof.
  intros HM. eexists. split; [apply chunk_text_slices, HM|].
  set (m := Z.to_nat max_chars). assert (Hm : 0 < m) by (unfold m; lia).
  rewrite list_lookup_fmap.
  destruct (Nat.ltb_spec (k * m) (String.length text)) as [Hlt|Hge].
  - rewrite lookup_seq_lt by (apply lt_ceil_div; assumption). reflexivity.
  - rewrite lookup_seq_ge; [reflexivity|].
    destruct (Nat.lt_ge_cases k (ceil_div (String.length text) m)) as [Hk|]; [|assumption].
    apply lt_ceil_div in Hk; [lia | assumption].
Qed.

Lemma chunk_text_lookup_witness :
  exists chunks,
    chunk_text "abcdefg" 3 = Ok chunks
    /\ chunks !! 2
       = if 2 * Z.to_nat 3 <? String.length "abcdefg"
         then Some (slice "abcdefg" (2 * Z.to_nat 3) (2 * Z.to_nat 3 + Z.to_nat 3))
         else None.
Proof. apply (chunk_text_lookup "abcdefg" 3 2). reflexivity. Defined.

Lemma slice_to_end (text : string) (m : nat) :
  slice text m (String.length text) = drop_chars m text.
Proof.
  unfold slice. rewrite substring_take_drop.
  apply take_chars_all. rewrite length_drop_chars. lia.
Qed.

Lemma slice_from_start (text : string) (m : nat) :
  slice text 0 m = take_chars m text.
Proof. unfold slice. rewrite substring_take_drop, Nat.sub_0_r. reflexivity. Qed.

Lemma chunk_list_empty (m : nat) : 0 < m -> chunk_list EmptyString m = [].
Proof. intros Hm. unfold chunk_list. simpl. now rewrite ceil_div_0. Qed.

Lemma chunk_list_cons (text : string) (m : nat) :
  0 < m -> text <> EmptyString ->
  chunk_list text m = take_chars m text :: chunk_list (drop_chars m text) m.
Proof.
  intros Hm Hne. unfold chunk_list.
  assert (Hn : 0 < String.length text) by (destruct text; [congruence | simpl; lia]).
  rewrite (ceil_div_step (String.length text) m) by assumption.
  rewrite <- cons_seq, <- seq_shift, map_cons, map_map, length_drop_chars.
  f_equal.
  - rewrite <- slice_from_start. reflexivity.
  - apply map_ext. intros k. unfold slice. rewrite !substring_take_drop.
    rewrite drop_drop_chars.
    replace (S k * m + m - S k * m) with m by lia.
    replace (k * m + m - k * m) with m by lia.
    reflexivity.
Qed.

(** X5.  Chunking is cutting the first [max_chars] characters off and chunking
    what is left: for a non-empty text the first chunk is
    [text[0:max_chars]] and the other chunks are the chunks of
    [text[max_chars:]]. *)
Theorem chunk_text_unfold (text : string) (max_chars : Z) :
  (0 < max_chars)%Z -> text <> EmptyString ->
  exists rest,
    chunk_text (slice text (Z.to_nat max_chars) (String.length text)) max_chars = Ok rest
    /\ chunk_text text max_chars = Ok (slice text 0 (Z.to_nat max_chars) :: rest).
Proof.
  intros HM Hne. eexists. split; [apply chunk_text_chunk_list, HM|].
  rewrite chunk_text_chunk_list by exact HM.
  rewrite chunk_list_cons by (assumption || lia).
  now rewrite slice_to_end, slice_from_start.
Qed.

Lemma chunk_text_unfold_witness :
  exists rest,
    chunk_text (slice "abcdefg" (Z.to_nat 3) (String.length "abcdefg")) 3 = Ok rest
    /\ chunk_text "abcdefg" 3 = Ok (slice "abcdefg" 0 (Z.to_nat 3) :: rest).
Proof. apply (chunk_text_unfold "abcdefg" 3); [reflexivity | discriminate]. Defined.

Lemma take_chars_app_l (m : nat) (a b : string) :
  m <= String.length a -> take_chars m (a +:+ b) = take_chars m a.
Proof.
  revert a. induction m as [|m IH]; intros [|c a]; simpl; intros H;
    try reflexivity; try lia.
  try rewrite app_String; simpl. f_equal. apply IH. lia.
Qed.

Lemma drop_chars_app_l (m : nat) (a b : string) :
  m <= String.length a -> drop_chars m (a +:+ b) = drop_chars m a +:+ b.
Proof.
  revert a. induction m as [|m IH]; intros [|c a]; simpl; intros H;
    try reflexivity; try lia.
  try rewrite app_String; simpl. apply IH. lia.
Qed.

Lemma chunk_list_app_aligned (a b : string) (m k : nat) :
  0 < m -> String.length a = k * m ->
  chunk_list (a +:+ b) m = chunk_list a m ++ chunk_list b m.
Proof.
  intros Hm. revert a. induction k as [|k IH]; intros a Hlen.
  - destruct a; [|discriminate]. now rewrite chunk_list_empty.
  - assert (Ha : a <> EmptyString) by (intros ->; simpl in Hlen; lia).
    assert (Hab : a +:+ b <> EmptyString) by (destruct a; [congruence | discriminate]).
    rewrite (chunk_list_cons (a +:+ b)), (chunk_list_cons a) by assumption.
    rewrite take_chars_app_l, drop_chars_app_l by lia.
    rewrite IH by (rewrite length_drop_chars; lia). reflexivity.
Qed.

(** X6.  Chunking composes over concatenation at a chunk boundary: when the
    length of [a] is a multiple of [max_chars], the chunks of [a + b] are
    the chunks of [a] followed by the chunks of [b]. *)
Theorem chunk_text_app_aligned (a b : string) (max_chars : Z) (k : nat) :
  (0 < max_chars)%Z -> String.length a = k * Z.to_nat max_chars ->
  exists chunks_a chunks_b,
    chunk_text a max_chars = Ok chunks_a
    /\ chunk_text b max_chars = Ok chunks_b
    /\ chunk_text (a +:+ b) max_chars = Ok (chunks_a ++ chunks_b).
Proof.
  intros HM Hlen. do 2 eexists.
  split; [apply chunk_text_chunk_list, HM|].
  split; [apply chunk_text_chunk_list, HM|].
  rewrite chunk_text_chunk_list by exact HM. f_equal.
  apply (chunk_list_app_aligned a b _ k); [lia | exact Hlen].
Qed.

Lemma chunk_text_app_aligned_witness :
  exists chunks_a chunks_b,
    chunk_text "abcdef" 3 = Ok chunks_a
    /\ chunk_text "gh" 3 = Ok chunks_b
    /\ chunk_text ("abcdef" +:+ "gh") 3 = Ok (chunks_a ++ chunks_b).
Proof. apply (chunk_text_app_aligned "abcdef" "gh" 3 2); reflexivity. Defined.

(** X7.  A text that is not empty and not longer than [max_chars] is its own
    single chunk. *)
Theorem chunk_text_short (text : string) (max_chars : Z) :
  (0 < max_chars)%Z -> text <> EmptyString ->
  (Z.of_nat (String.length text) <= max_chars)%Z ->
  chunk_text text max_chars = Ok [text].
Proof.
  intros HM Hne Hlen. rewrite chunk_text_chunk_list by exact HM.
  rewrite chunk_list_cons by (assumption || lia).
  rewrite take_chars_all, drop_chars_all by lia.
  rewrite chunk_list_empty by lia. reflexivity.
Qed.

Lemma chunk_text_short_witness : chunk_text "abc" 1000 = Ok ["abc"].
Proof. apply (chunk_text_short "abc" 1000); [reflexivity | discriminate | simpl; lia]. Defined.

End ChunkerMore.

(** ** The embedding loop under any outcome *)

Section EmbedLoopMore.
Import PyStr Chunker Backend Obs Demo Trace Outage.

Lemma embed_chunks_events (W : services) (file_id file_name : string)
    (ichunks : list (nat * string)) (acc : list vector) (h h' : history)
    (r : outcome (list vector)) :
  embed_chunks W file_id file_name ichunks acc h = (r, h') ->
  exists evs,
    h' = h ++ evs
    /\ Forall (fun ev => is_embedding ev = true) evs
    /\ (forall vectors, r = Ok vectors -> length vectors = length acc + length evs).
Proof.
  revert acc h. induction ichunks as [|[i chunk] rest IH]; intros acc h; simpl.
  - intros [= <- <-]. exists []. rewrite app_nil_r. repeat split; [constructor|].
    intros vectors [= <-]. simpl. lia.
  - destruct (not_ (strip chunk)); [apply IH|].
    unfold bind, get_embedding, call.
    destruct (embeddings_create W h _ chunk) as [emb|e].
    + intros H. apply IH in H as (evs & -> & Hevs & Hlen).
      exists (EmbeddingsCreate "text-embedding-3-small" chunk :: evs).
      rewrite <- app_assoc. repeat split; [now constructor|].
      intros vectors Hr. rewrite (Hlen vectors Hr), length_app. simpl. lia.
    + intros [= <- <-]. eexists. repeat split; [repeat constructor|].
      intros vectors [=].
Qed.

Lemma embed_chunks_total (W : services) (file_id file_name : string)
    (ichunks : list (nat * string)) (acc : list vector) (h : history) :
  (forall h model input, exists emb, embeddings_create W h model input = Ok emb) ->
  exists vectors h', embed_chunks W file_id file_name ichunks acc h = (Ok vectors, h').
Proof.
  intros Hemb. revert acc h.
  induction ichunks as [|[i chunk] rest IH]; intros acc h; simpl; [eauto|].
  destruct (not_ (strip chunk)); [apply IH|].
  unfold bind, get_embedding, call.
  destruct (Hemb h "text-embedding-3-small" chunk) as (emb & ->). apply IH.
Qed.

Lemma embed_chunks_fails (W : services) (file_id file_name : string)
    (ichunks : list (nat * string)) (acc : list vector) (h : history)
    (i : nat) (chunk : string) (e : exn) :
  In (i, chunk) ichunks -> blank chunk = false ->
  (forall h, embeddings_create W h "text-embedding-3-small" chunk = Raise e) ->
  exists e' h', embed_chunks W file_id file_name ichunks acc h = (Raise e', h').
Proof.
  intros Hin Hb Hfail. revert acc h.
  induction ichunks as [|[j c] rest IH]; intros acc h; simpl; [destruct Hin|].
  fold (blank c). destruct Hin as [[= -> ->]|Hin].
  - rewrite Hb. unfold bind, get_embedding, call. rewrite Hfail. eauto.
  - destruct (blank c); [now apply IH|].
    unfold bind, get_embedding, call.
    destruct (embeddings_create W h _ c) as [emb|e0]; [now apply IH | eauto].
Qed.

Lemma embed_chunks_values (W : services) (file_id file_name : string)
    (f : string -> embedding) (ichunks : list (nat * string)) (acc : list vector)
    (h : history) :
  (forall h input, embeddings_create W h "text-embedding-3-small" input = Ok (f input)) ->
  let kept := List.filter (fun ic => negb (blank ic.2)) ichunks in
  embed_chunks W file_id file_name ichunks acc h
  = (Ok (acc ++ map (fun ic => chunk_vector file_id file_name ic.1 ic.2 (f ic.2)) kept),
     h ++ map (fun ic => EmbeddingsCreate "text-embedding-3-small" ic.2) kept).
Proof.
  intros Hf. revert acc h.
  induction ichunks as [|[i chunk] rest IH]; intros acc h; simpl.
  - now rewrite !app_nil_r.
  - fold (blank chunk). destruct (blank chunk); simpl; [apply IH|].
    unfold bind, get_embedding, call. rewrite Hf, IH. simpl.
    now rewrite <- !app_assoc.
Qed.

Lemma embedding_inputs_app (a b : history) :
  embedding_inputs (a ++ b) = embedding_inputs a ++ embedding_inputs b.
Proof.
  induction a as [|ev a IH]; simpl; [reflexivity|].
  destruct ev; try exact IH. simpl. now rewrite IH.
Qed.

Lemma embedding_inputs_bookkeeping (evs : history) :
  Forall (fun ev => is_bookkeeping ev = true) evs -> embedding_inputs evs = [].
Proof.
  induction 1 as [|ev evs Hev _ IH]; simpl; [reflexivity|].
  destruct ev; try discriminate; exact IH.
Qed.

Lemma embedding_inputs_upsert_calls (vectors : list vector) :
  embedding_inputs (upsert_calls vectors) = [].
Proof. now destruct vectors. Qed.

Lemma embedding_inputs_map {A : Type} (f : A -> string) (l : list A) :
  embedding_inputs (map (fun x => EmbeddingsCreate "text-embedding-3-small" (f x)) l)
  = map f l.
Proof. induction l as [|x l IH]; simpl; [reflexivity|]. now rewrite IH. Qed.

Lemma embedding_inputs_length (evs : history) :
  Forall (fun ev => is_embedding ev = true) evs ->
  length (embedding_inputs evs) = length evs.
Proof.
  induction 1 as [|ev evs Hev _ IH]; simpl; [reflexivity|].
  destruct ev; try discriminate. simpl. now rewrite IH.
Qed.

Lemma filter_upsert_embeddings (evs : history) :
  Forall (fun ev => is_embedding ev = true) evs -> List.filter is_upsert evs = [].
Proof.
  induction 1 as [|ev evs Hev _ IH]; simpl; [reflexivity|].
  destruct ev; try discriminate. exact IH.
Qed.

Lemma filter_upsert_bookkeeping (evs : history) :
  Forall (fun ev => is_bookkeeping ev = true) evs -> List.filter is_upsert evs = [].
Proof.
  induction 1 as [|ev evs Hev _ IH]; simpl; [reflexivity|].
  destruct ev; try discriminate; exact IH.
Qed.

End EmbedLoopMore.

(** ** The table insert of step 5 *)

Section TableInsert.
Import PyStr Chunker Backend Obs Demo Trace Outage.

(** X9.  The insert into the [documents] table never makes the upload fail with
    an [Exception]: a success adds the insert call alone, an [Exception] is
    caught and its message printed, and only an error outside [Exception]
    goes on to the caller. *)
Theorem insert_document_swallows_exceptions (W : services)
    (file_id file_name path : string) (h : history) :
  let row := document_row file_id file_name path in
  match table_insert W h "documents" row with
  | Ok _ =>
      insert_document W file_id file_name path h
      = (Ok tt, h ++ [TableInsert "documents" row])
  | Raise e =>
      insert_document W file_id file_name path h
      = if exn_is_Exception e
        then (Ok tt,
              h ++ [TableInsert "documents" row;
                    Stdout ("Error inserting into Supabase documents table: " +:+ exn_msg e)])
        else (Raise e, h ++ [TableInsert "documents" row])
  end.
Proof.
  intros row. unfold insert_document, try_except_Exception, call, print. fold row.
  destruct (table_insert W h "documents" row) as [[]|e]; [reflexivity|].
  destruct (exn_is_Exception e); [now rewrite <- app_assoc | reflexivity].
Qed.

Example insert_down_still_uploads :
  fst (upload_pdfs W_insert_down [good] [])
  = Ok (UploadResponse "ok" [DocSummary "doc0" "good.pdf" 1]).
Proof. vm_compute. reflexivity. Qed.

Example insert_interrupted_aborts :
  fst (upload_pdfs W_insert_interrupted [good] []) = Raise interrupt.
Proof. vm_compute. reflexivity. Qed.

End TableInsert.

(** ** One iteration of the upload loop: success, order of calls, failures *)

Section UploadOneMore.
Import PyStr Chunker Backend Obs Demo Trace Outage.

Lemma bind_eq {A B : Type} (m : io A) (k : A -> io B) (h : history) (a : A)
    (h1 : history) :
  m h = (Ok a, h1) -> bind m k h = k a h1.
Proof. intros H. unfold bind. now rewrite H. Qed.

Lemma bind_raise {A B : Type} (m : io A) (k : A -> io B) (h : history) (e : exn)
    (h1 : history) :
  m h = (Raise e, h1) -> bind m k h = (Raise e, h1).
Proof. intros H. unfold bind. now rewrite H. Qed.

Lemma chunk_text_1000 (text : string) : exists chunks, chunk_text text 1000 = Ok chunks.
Proof. eexists. apply chunk_text_slices. lia. Qed.

Lemma upload_one_total (W : services) (file : upload_file) (h : history) :
  services_answer W [file] ->
  exists doc h', upload_one W file h = (Ok doc, h').
Proof.
  intros (Hsto & Hext & Hemb & Hups & Hins).
  apply Forall_inv in Hext as (text & Hext).
  destruct (chunk_text_1000 text) as (chunks & Hchunks).
  destruct (Hsto h (SUPABASE_BUCKET W) (uuid4 W h +:+ "/" +:+ filename file) (content file))
    as (res & Hres).
  unfold upload_one.
  rewrite (bind_eq _ _ h (uuid4 W h) h) by reflexivity. lazy zeta.
  erewrite bind_eq by (unfold call; rewrite Hres; reflexivity).
  erewrite bind_eq by reflexivity.
  erewrite bind_eq by (unfold lift; rewrite Hext; reflexivity).
  erewrite bind_eq by (unfold lift; rewrite Hchunks; reflexivity).
  match goal with |- context [embed_chunks W ?a ?b ?c ?d] =>
    destruct (embed_chunks_total W a b c d
                ((h ++ [StorageUpload (SUPABASE_BUCKET W)
                          (uuid4 W h +:+ "/" +:+ filename file) (content file)])
                 ++ [Stdout ("Supabase upload response: " +:+ res)]) Hemb)
      as (vectors & h3 & Hvs) end.
  erewrite bind_eq by exact Hvs.
  assert (Hstep : exists h4,
             match vectors with
             | [] => ret tt
             | _ :: _ => call (IndexUpsert vectors) (fun h => index_upsert W h vectors)
             end h3 = (Ok tt, h4)).
  { destruct vectors; [unfold ret; eauto|]. unfold call. rewrite Hups. eauto. }
  destruct Hstep as (h4 & Hstep).
  erewrite bind_eq by exact Hstep.
  match goal with |- context [insert_document W ?a ?b ?c] =>
    destruct (insert_document_ok W a b c h4) as (h5 & Hdoc); [intros e; apply Hins|] end.
  erewrite bind_eq by exact Hdoc.
  unfold ret. eauto.
Qed.

Lemma upload_loop_total (W : services) (files : list upload_file)
    (acc : list doc_summary) (h : history) :
  services_answer W files ->
  exists docs h', upload_loop W files acc h = (Ok docs, h').
Proof.
  intros (Hsto & Hext & Hemb & Hups & Hins). revert acc h.
  induction Hext as [|file files Hfile _ IH]; intros acc h; simpl; [eauto|].
  unfold bind.
  destruct (upload_one_total W file h) as (doc & h1 & ->).
  - repeat split; try assumption. now constructor.
  - apply IH.
Qed.

Lemma summaries_in_order (W : services) (files : list upload_file)
    (docs : list doc_summary) :
  Forall2 (counts_all_chunks W) files docs ->
  map sum_file_name docs = map filename files.
Proof.
  induction 1 as [|file doc files docs (Hname & _) _ IH]; simpl; [reflexivity|].
  now rewrite Hname, IH.
Qed.

(** X8.  When the services answer, the upload of any list of files succeeds, and
    its answer lists one summary per file, in the order of the files. *)
Theorem upload_pdfs_succeeds (W : services) (files : list upload_file) (h : history) :
  services_answer W files ->
  exists resp h',
    upload_pdfs W files h = (Ok resp, h')
    /\ status resp = "ok"
    /\ map sum_file_name (uploaded resp) = map filename files.
Proof.
  intros Hans. destruct (upload_loop_total W files [] h Hans) as (docs & h' & Hloop).
  exists (UploadResponse "ok" docs), h'. unfold upload_pdfs, bind. rewrite Hloop.
  repeat split. simpl.
  apply upload_loop_ok in Hloop as (new & evs & -> & _ & Hall & _). simpl.
  now apply (summaries_in_order W).
Qed.

Lemma upload_pdfs_succeeds_witness :
  exists resp h',
    upload_pdfs W0 [good; spaces; gappy] [] = (Ok resp, h')
    /\ status resp = "ok"
    /\ map sum_file_name (uploaded resp) = map filename [good; spaces; gappy].
Proof.
  apply (upload_pdfs_succeeds W0 [good; spaces; gappy] []).
  repeat split; simpl; eauto.
  - repeat constructor; eexists; vm_compute; reflexivity.
  - discriminate.
Defined.

End UploadOneMore.

(** ** One iteration of the upload loop: the order of its calls *)

Section CallDiscipline.
Import PyStr Chunker Backend Obs Demo Trace Outage.

Lemma upload_one_shape (W : services) (file : upload_file) (h : history) :
  exists rest,
    snd (upload_one W file h)
    = h ++ StorageUpload (SUPABASE_BUCKET W) (uuid4 W h +:+ "/" +:+ filename file)
             (content file) :: rest
    /\ after_storage rest.
Proof.
  set (path := uuid4 W h +:+ "/" +:+ filename file).
  set (su := StorageUpload (SUPABASE_BUCKET W) path (content file)).
  unfold upload_one.
  rewrite (bind_eq _ _ h (uuid4 W h) h) by reflexivity. lazy zeta. fold path. fold su.
  destruct (storage_upload W h (SUPABASE_BUCKET W) path (content file)) as [res|e] eqn:Hsto.
  2:{ erewrite bind_raise by (unfold call; rewrite Hsto; reflexivity).
      exists []. split; [reflexivity | now left]. }
  erewrite bind_eq by (unfold call; rewrite Hsto; reflexivity).
  erewrite bind_eq by reflexivity.
  set (out := Stdout ("Supabase upload response: " +:+ res)).
  assert (Hshape : forall embeds ups tail (r : outcome doc_summary) hfin,
             Forall (fun ev => is_embedding ev = true) embeds ->
             ups_ok embeds ups ->
             Forall (fun ev => is_bookkeeping ev = true) tail ->
             hfin = ((((h ++ [su]) ++ [out]) ++ embeds) ++ ups) ++ tail ->
             exists rest, snd (r, hfin) = h ++ su :: rest /\ after_storage rest).
  { intros embeds ups tail r hfin He Hu Ht ->. exists (out :: embeds ++ ups ++ tail).
    split; [simpl; now rewrite <- !app_assoc|].
    right. exists res, embeds, ups, tail. auto. }
  destruct (extract_text_from_pdf_bytes W (content file)) as [text|e] eqn:Hext.
  2:{ erewrite bind_raise by reflexivity.
      apply (Hshape [] [] [] (Raise e));
        [constructor | now left | constructor | now rewrite !app_nil_r]. }
  erewrite bind_eq by reflexivity.
  destruct (chunk_text_1000 text) as (chunks & Hchunks).
  erewrite bind_eq by (unfold lift; rewrite Hchunks; reflexivity).
  destruct (embed_chunks W (uuid4 W h) (filename file) (enumerate chunks) []
              ((h ++ [su]) ++ [out])) as [r h3] eqn:Hemb.
  pose proof Hemb as Hevs.
  apply embed_chunks_events in Hevs as (embeds & -> & Hembeds & Hlen).
  destruct r as [vectors|e].
  2:{ erewrite bind_raise by exact Hemb.
      apply (Hshape embeds [] [] (Raise e));
        [assumption | now left | constructor | now rewrite !app_nil_r]. }
  erewrite bind_eq by exact Hemb.
  specialize (Hlen vectors eq_refl). simpl in Hlen.
  assert (Hups : ups_ok embeds (upsert_calls vectors)).
  { destruct vectors; [now left|]. right. eexists. repeat split; [discriminate | exact Hlen]. }
  assert (Hfinish : forall h4 ups,
             h4 = (((h ++ [su]) ++ [out]) ++ embeds) ++ ups ->
             ups_ok embeds ups ->
             exists rest,
               snd (bind (insert_document W (uuid4 W h) (filename file) path)
                      (fun _ => ret (DocSummary (uuid4 W h) (filename file) (length chunks)))
                      h4)
               = h ++ su :: rest
               /\ after_storage rest).
  { intros h4 ups -> Hok.
    destruct (insert_document W (uuid4 W h) (filename file) path
                ((((h ++ [su]) ++ [out]) ++ embeds) ++ ups)) as [r5 h5] eqn:Hins.
    pose proof Hins as Htail.
    apply insert_document_events in Htail as (tail & -> & Htail).
    destruct r5 as [[]|e].
    - erewrite bind_eq by exact Hins. unfold ret.
      now apply (Hshape embeds ups tail).
    - erewrite bind_raise by exact Hins.
      now apply (Hshape embeds ups tail). }
  destruct vectors as [|v vectors].
  - erewrite bind_eq by reflexivity.
    apply (Hfinish _ []); [now rewrite app_nil_r | now left].
  - destruct (index_upsert W ((((h ++ [su]) ++ [out]) ++ embeds)) (v :: vectors))
      as [[]|e] eqn:Hup.
    + erewrite bind_eq by (unfold call; rewrite Hup; reflexivity).
      apply (Hfinish _ [IndexUpsert (v :: vectors)]); [reflexivity | exact Hups].
    + erewrite bind_raise by (unfold call; rewrite Hup; reflexivity).
      apply (Hshape embeds [IndexUpsert (v :: vectors)] [] (Raise e));
        [assumption | exact Hups | constructor | now rewrite app_nil_r].
Qed.

End CallDiscipline.

Section CallDisciplineClaims.
Import PyStr Chunker Backend Obs Demo Trace Outage.

Lemma after_storage_upserts (rest : history) :
  after_storage rest ->
  length (List.filter is_upsert rest) <= 1
  /\ (forall vectors, In (IndexUpsert vectors) rest ->
        vectors <> [] /\ length vectors = length (embedding_inputs rest)).
Proof.
  intros [->|(res & embeds & ups & tail & -> & Hemb & Hups & Htail)].
  - split; [simpl; lia | intros vectors []].
  - split.
    + simpl. rewrite !List.filter_app.
      rewrite (filter_upsert_embeddings embeds Hemb), (filter_upsert_bookkeeping tail Htail).
      rewrite app_nil_r. simpl.
      destruct Hups as [->|(vectors & -> & _)]; simpl; lia.
    + intros vectors [Habs|Hin]; [discriminate|].
      simpl. rewrite !embedding_inputs_app.
      rewrite (embedding_inputs_bookkeeping tail Htail), app_nil_r.
      apply in_app_or in Hin as [Hin|Hin].
      { rewrite Forall_forall in Hemb. apply list_elem_of_In, Hemb in Hin. discriminate. }
      apply in_app_or in Hin as [Hin|Hin].
      2:{ rewrite Forall_forall in Htail. apply list_elem_of_In, Htail in Hin. discriminate. }
      destruct Hups as [->|(vs & -> & Hne & Hlen)]; [destruct Hin|].
      destruct Hin as [[= <-]|[]]. split; [exact Hne|].
      simpl. rewrite app_nil_r, embedding_inputs_length by exact Hemb. exact Hlen.
Qed.

(** X10.  Whatever the services do, the calls of one iteration start with the
    storage write of the file, [index.upsert] is called at most once, and
    never with an empty list: the list it gets has one record for each
    embedding call made for the document. *)
Theorem upload_one_call_discipline (W : services) (file : upload_file) (h : history) :
  exists rest,
    snd (upload_one W file h)
    = h ++ StorageUpload (SUPABASE_BUCKET W) (uuid4 W h +:+ "/" +:+ filename file)
             (content file) :: rest
    /\ length (List.filter is_upsert rest) <= 1
    /\ (forall vectors, In (IndexUpsert vectors) rest ->
          vectors <> [] /\ length vectors = length (embedding_inputs rest)).
Proof.
  destruct (upload_one_shape W file h) as (rest & Hrest & Hshape).
  exists rest. split; [exact Hrest|]. now apply after_storage_upserts.
Qed.

(** X11.  When the embedding of one non-blank chunk of a document fails, the
    iteration raises and nothing of the document reaches the index or the
    table: the records of the chunks embedded before the failure are
    dropped with it. *)
Theorem embedding_failure_skips_upsert (W : services) (file : upload_file)
    (h : history) (res text : string) (chunks : list string) (k : nat)
    (chunk : string) (e : exn) :
  storage_upload W h (SUPABASE_BUCKET W) (uuid4 W h +:+ "/" +:+ filename file)
    (content file) = Ok res ->
  extract_text_from_pdf_bytes W (content file) = Ok text ->
  chunk_text text 1000 = Ok chunks ->
  chunks !! k = Some chunk -> blank chunk = false ->
  (forall h, embeddings_create W h "text-embedding-3-small" chunk = Raise e) ->
  exists e' evs,
    upload_one W file h = (Raise e', h ++ evs)
    /\ Forall (fun ev => is_upsert ev = false /\ is_table_insert ev = false) evs.
Proof.
  intros Hsto Hext Hchunks Hk Hb Hfail.
  destruct (embed_chunks_fails W (uuid4 W h) (filename file) (enumerate chunks) []
              ((h ++ [StorageUpload (SUPABASE_BUCKET W)
                        (uuid4 W h +:+ "/" +:+ filename file) (content file)])
               ++ [Stdout ("Supabase upload response: " +:+ res)]) k chunk e)
    as (e' & h3 & Hemb); [apply (enumerate_from_lookup 0), Hk | exact Hb | exact Hfail |].
  pose proof Hemb as Hevs.
  apply embed_chunks_events in Hevs as (embeds & -> & Hembeds & _).
  exists e'. eexists. split.
  - unfold upload_one.
    rewrite (bind_eq _ _ h (uuid4 W h) h) by reflexivity. lazy zeta.
    erewrite bind_eq by (unfold call; rewrite Hsto; reflexivity).
    erewrite bind_eq by reflexivity.
    erewrite bind_eq by (unfold lift; rewrite Hext; reflexivity).
    erewrite bind_eq by (unfold lift; rewrite Hchunks; reflexivity).
    erewrite bind_raise by exact Hemb.
    rewrite <- !app_assoc. reflexivity.
  - simpl. repeat constructor. apply Forall_forall. intros ev Hev.
    rewrite Forall_forall in Hembeds. specialize (Hembeds ev Hev).
    destruct ev; try discriminate; auto.
Qed.

Lemma embedding_failure_skips_upsert_witness :
  exists e' evs,
    upload_one W_embed_fails gappy [] = (Raise e', [] ++ evs)
    /\ Forall (fun ev => is_upsert ev = false /\ is_table_insert ev = false) evs.
Proof.
  apply (embedding_failure_skips_upsert W_embed_fails gappy [] "ok" gappy_text
           (chunks_of W_embed_fails gappy) 2 "b" embed_error).
  - reflexivity.
  - vm_compute. reflexivity.
  - vm_compute. reflexivity.
  - vm_compute. reflexivity.
  - vm_compute. reflexivity.
  - intros h. reflexivity.
Defined.

(** X12.  When [index.upsert] raises, the error goes to the caller after the one
    upsert attempt: the document gets no row in the [documents] table and no
    summary. *)
Theorem upsert_failure_propagates (W : services) (file : upload_file)
    (h : history) (res text : string) (chunks : list string) (k : nat)
    (chunk : string) (e : exn) :
  storage_upload W h (SUPABASE_BUCKET W) (uuid4 W h +:+ "/" +:+ filename file)
    (content file) = Ok res ->
  extract_text_from_pdf_bytes W (content file) = Ok text ->
  chunk_text text 1000 = Ok chunks ->
  chunks !! k = Some chunk -> blank chunk = false ->
  (forall h model input, exists emb, embeddings_create W h model input = Ok emb) ->
  (forall h vectors, index_upsert W h vectors = Raise e) ->
  exists evs,
    upload_one W file h = (Raise e, h ++ evs)
    /\ length (List.filter is_upsert evs) = 1
    /\ Forall (fun ev => is_table_insert ev = false) evs.
Proof.
  intros Hsto Hext Hchunks Hk Hb Hemb Hups.
  destruct (embed_chunks_total W (uuid4 W h) (filename file) (enumerate chunks) []
              ((h ++ [StorageUpload (SUPABASE_BUCKET W)
                        (uuid4 W h +:+ "/" +:+ filename file) (content file)])
               ++ [Stdout ("Supabase upload response: " +:+ res)]) Hemb)
    as (vectors & h3 & Hrun).
  pose proof Hrun as Hevs.
  apply embed_chunks_events in Hevs as (embeds & -> & Hembeds & _).
  pose proof Hrun as Hvs.
  apply embed_chunks_ok in Hvs as (embs & Hlen & Hvs & _). simpl in Hvs.
  assert (Hne : exists v vs, vectors = v :: vs).
  { assert (Hin : In (k, chunk)
                    (List.filter (fun ic => negb (blank ic.2)) (enumerate chunks))).
    { apply filter_In. split; [apply (enumerate_from_lookup 0), Hk|].
      simpl. now rewrite Hb. }
    destruct (List.filter _ (enumerate chunks)) as [|ic kept]; [destruct Hin|].
    destruct embs as [|emb embs]; [discriminate|]. subst vectors. simpl. eauto. }
  destruct Hne as (v & vs & ->).
  eexists. split; [|split].
  - unfold upload_one.
    rewrite (bind_eq _ _ h (uuid4 W h) h) by reflexivity. lazy zeta.
    erewrite bind_eq by (unfold call; rewrite Hsto; reflexivity).
    erewrite bind_eq by reflexivity.
    erewrite bind_eq by (unfold lift; rewrite Hext; reflexivity).
    erewrite bind_eq by (unfold lift; rewrite Hchunks; reflexivity).
    erewrite bind_eq by exact Hrun.
    erewrite bind_raise by (unfold call; rewrite Hups; reflexivity).
    rewrite <- !app_assoc. reflexivity.
  - simpl. rewrite List.filter_app, (filter_upsert_embeddings embeds Hembeds). reflexivity.
  - simpl. repeat constructor. apply Forall_app. split; [|repeat constructor].
    apply Forall_forall. intros ev Hev.
    rewrite Forall_forall in Hembeds. specialize (Hembeds ev Hev).
    destruct ev; try discriminate; auto.
Qed.

Lemma upsert_failure_propagates_witness :
  exists evs,
    upload_one W_upsert_down good [] = (Raise index_error, [] ++ evs)
    /\ length (List.filter is_upsert evs) = 1
    /\ Forall (fun ev => is_table_insert ev = false) evs.
Proof.
  apply (upsert_failure_propagates W_upsert_down good [] "ok" "hello world"
           ["hello world"] 0 "hello world" index_error).
  - reflexivity.
  - reflexivity.
  - reflexivity.
  - reflexivity.
  - vm_compute. reflexivity.
  - intros h model input. eexists. reflexivity.
  - intros h vectors. reflexivity.
Defined.

End CallDisciplineClaims.

(** ** The records of a document, in full *)

Section RecordsMore.
Import PyStr Chunker Backend Obs Demo Trace Outage.

(** X13.  Embeddings are asked for the non-blank chunks of the document and for
    nothing else: one call per such chunk, with the chunk as input, in the
    order of the text. *)
Theorem embedding_calls_are_nonblank_chunks (W : services) (file : upload_file)
    (h h' : history) (doc : doc_summary) :
  upload_one W file h = (Ok doc, h') ->
  exists evs,
    h' = h ++ evs
    /\ embedding_inputs evs
       = List.filter (fun c => negb (blank c)) (chunks_of W file).
Proof.
  intros Hrun.
  apply upload_one_ok in Hrun
    as (res & text & chunks & embs & tail & _ & Htext & Hchunks & Hlen & -> & Htail & ->).
  assert (Hof : chunks_of W file = chunks)
    by (unfold chunks_of; now rewrite Htext, Hchunks).
  rewrite Hof. eexists. split; [reflexivity|].
  rewrite !embedding_inputs_app, embedding_inputs_upsert_calls.
  rewrite (embedding_inputs_bookkeeping tail Htail), embedding_inputs_map.
  simpl. rewrite !app_nil_r. apply kept_chunks_snd.
Qed.

Lemma embedding_calls_are_nonblank_chunks_witness :
  exists evs,
    snd (upload_one W0 gappy []) = [] ++ evs
    /\ embedding_inputs evs
       = List.filter (fun c => negb (blank c)) (chunks_of W0 gappy).
Proof.
  apply (embedding_calls_are_nonblank_chunks W0 gappy [] (snd (upload_one W0 gappy []))
           (DocSummary "doc0" "gappy.pdf" 3)).
  vm_compute. reflexivity.
Defined.

Lemma upload_one_vectors (W : services) (file : upload_file) (h h' : history)
    (doc : doc_summary) :
  upload_one W file h = (Ok doc, h') ->
  exists res vectors h3 evs,
    embed_chunks W (uuid4 W h) (filename file) (enumerate (chunks_of W file)) []
      (h ++ [StorageUpload (SUPABASE_BUCKET W) (uuid4 W h +:+ "/" +:+ filename file)
               (content file);
             Stdout ("Supabase upload response: " +:+ res)])
    = (Ok vectors, h3)
    /\ doc = DocSummary (uuid4 W h) (filename file) (length (chunks_of W file))
    /\ h' = h ++ evs
    /\ upserted evs = vectors.
Proof.
  intros Hrun. unfold upload_one in Hrun.
  apply bind_ok in Hrun as (fid & h0 & [= <- <-] & Hrun).
  apply bind_ok in Hrun as (res & h1 & Hsto & Hrun).
  apply bind_ok in Hrun as ([] & h2 & [= <-] & Hrun).
  apply bind_ok in Hrun as (text & ? & [Htext ->]%lift_ok & Hrun).
  apply bind_ok in Hrun as (chunks & ? & [Hchunks ->]%lift_ok & Hrun).
  apply bind_ok in Hrun as (vectors & h3 & Hemb & Hrun).
  apply bind_ok in Hrun as ([] & h4 & Hups & Hrun).
  apply bind_ok in Hrun as ([] & h5 & Hins & [= <- <-]).
  unfold call in Hsto. injection Hsto as Hsto <-.
  assert (Hof : chunks_of W file = chunks)
    by (unfold chunks_of; now rewrite Htext, Hchunks).
  rewrite Hof. rewrite <- app_assoc in Hemb. simpl in Hemb.
  pose proof Hemb as Hevs.
  apply embed_chunks_events in Hevs as (embeds & -> & Hembeds & _).
  match type of Hups with _ ?h3 = _ =>
    assert (Hh4 : h4 = h3 ++ upsert_calls vectors) end.
  { destruct vectors; simpl in Hups |- *.
    - injection Hups as <-. now rewrite app_nil_r.
    - unfold call in Hups. now injection Hups as _ <-. }
  subst h4.
  apply insert_document_events in Hins as (tail & -> & Htail).
  exists res, vectors. do 2 eexists.
  split; [exact Hemb|]. split; [reflexivity|]. split.
  - rewrite <- !app_assoc. reflexivity.
  - rewrite !upserted_app, upserted_upsert_calls, (upserted_bookkeeping tail Htail).
    simpl. rewrite app_nil_r.
    replace (upserted embeds) with (@nil vector); [reflexivity|].
    clear -Hembeds. induction Hembeds as [|ev evs Hev _ IH]; simpl; [reflexivity|].
    destruct ev; try discriminate; exact IH.
Qed.

(** X14.  When the embedding of a text does not depend on the moment of the call,
    the records upserted for a document are exactly one per non-blank chunk,
    in order, each with the embedding of its own chunk as values. *)
Theorem upserted_records_exact (W : services) (f : string -> embedding)
    (file : upload_file) (h h' : history) (doc : doc_summary) :
  (forall h input, embeddings_create W h "text-embedding-3-small" input = Ok (f input)) ->
  upload_one W file h = (Ok doc, h') ->
  exists evs,
    h' = h ++ evs
    /\ upserted evs
       = map (fun ic => chunk_vector (sum_file_id doc) (filename file) ic.1 ic.2 (f ic.2))
             (kept_chunks (chunks_of W file)).
Proof.
  intros Hf Hrun.
  apply upload_one_vectors in Hrun as (res & vectors & h3 & evs & Hemb & -> & -> & Hups).
  rewrite (embed_chunks_values W _ _ f _ _ _ Hf) in Hemb. injection Hemb as <- _.
  exists evs. split; [reflexivity|]. rewrite Hups. reflexivity.
Qed.

Lemma upserted_records_exact_witness :
  exists evs,
    snd (upload_one W0 gappy []) = [] ++ evs
    /\ upserted evs
       = map (fun ic => chunk_vector (sum_file_id (DocSummary "doc0" "gappy.pdf" 3))
                          (filename gappy) ic.1 ic.2 [Z.of_nat (String.length ic.2)])
             (kept_chunks (chunks_of W0 gappy)).
Proof.
  apply (upserted_records_exact W0 (fun t => [Z.of_nat (String.length t)]) gappy []
           (snd (upload_one W0 gappy [])) (DocSummary "doc0" "gappy.pdf" 3)).
  - intros h input. reflexivity.
  - vm_compute. reflexivity.
Defined.

Lemma str_of_nat_inj (n n' : nat) : str_of_nat n = str_of_nat n' -> n = n'.
Proof.
  assert (Hnil : forall k, Nat.to_uint k <> Decimal.Nil).
  { intros k Hk. pose proof (DecimalNat.Unsigned.to_of (Nat.to_uint k)) as H.
    rewrite DecimalNat.Unsigned.of_to, Hk in H. discriminate. }
  unfold str_of_nat. intros H.
  apply (f_equal NilZero.uint_of_string) in H.
  rewrite !NilZero.usu in H by apply Hnil.
  injection H as H. now apply DecimalNat.Unsigned.to_uint_inj.
Qed.

Lemma app_inv_head_str (p s t : string) : p +:+ s = p +:+ t -> s = t.
Proof.
  induction p as [|c p IH]; [auto|]. rewrite !app_String. intros [= H]. auto.
Qed.

(** X15.  The ids of the records upserted for one document are pairwise distinct:
    no record of a document overwrites another one of the same document. *)
Theorem vector_ids_distinct (W : services) (file : upload_file)
    (h h' : history) (doc : doc_summary) :
  upload_one W file h = (Ok doc, h') ->
  exists evs, h' = h ++ evs /\ NoDup (map vec_id (upserted evs)).
Proof.
  intros Hrun.
  apply upload_one_upserted in Hrun
    as (text & evs & embs & _ & _ & _ & -> & Hlen & Hups).
  exists evs. split; [reflexivity|]. rewrite Hups.
  rewrite (map_zip_with_l _ vec_id
             (fun ic : nat * string => uuid4 W h +:+ "_" +:+ str_of_nat ic.1))
    by (reflexivity || exact Hlen).
  rewrite <- (map_map fst (fun i => uuid4 W h +:+ "_" +:+ str_of_nat i)).
  fold (nonblank_positions (chunks_of W file)).
  apply NoDup_fmap_2.
  - intros i j Hij. apply app_inv_head_str, app_inv_head_str in Hij.
    now apply str_of_nat_inj.
  - eapply sublist_NoDup; [apply NoDup_seq | apply nonblank_positions_sublist].
Qed.

Lemma vector_ids_distinct_witness :
  exists evs,
    snd (upload_one W0 gappy []) = [] ++ evs /\ NoDup (map vec_id (upserted evs)).
Proof.
  apply (vector_ids_distinct W0 gappy [] (snd (upload_one W0 gappy []))
           (DocSummary "doc0" "gappy.pdf" 3)).
  vm_compute. reflexivity.
Defined.

End RecordsMore.

(** ** The summary of an upload against what was embedded and upserted *)

Section SummaryCounts.
Import PyStr Chunker Backend Obs Demo Trace Outage.

Lemma upload_loop_embedding_inputs (W : services) (files : list upload_file)
    (acc docs : list doc_summary) (h h' : history) :
  upload_loop W files acc h = (Ok docs, h') ->
  exists evs,
    h' = h ++ evs
    /\ embedding_inputs evs
       = flat_map (fun f => List.filter (fun c => negb (blank c)) (chunks_of W f)) files.
Proof.
  revert acc h. induction files as [|file files IH]; intros acc h; simpl.
  - intros [= <- <-]. exists []. now rewrite app_nil_r.
  - intros Hrun. apply bind_ok in Hrun as (doc & h1 & Hone & Hrest).
    apply upload_one_ok in Hone
      as (res & text & chunks & embs & tail & _ & Htext & Hchunks & _ & _ & Htail & ->).
    assert (Hof : chunks_of W file = chunks)
      by (unfold chunks_of; now rewrite Htext, Hchunks).
    apply IH in Hrest as (evs2 & -> & Hinputs).
    eexists. split; [rewrite <- app_assoc; reflexivity|].
    rewrite !embedding_inputs_app, embedding_inputs_upsert_calls.
    rewrite (embedding_inputs_bookkeeping tail Htail), embedding_inputs_map.
    simpl. rewrite !app_nil_r, Hinputs, Hof. f_equal. apply kept_chunks_snd.
Qed.

(** C7.  In the answer of a successful upload, the chunk count of each
    document is the number of chunks the chunker made of its text, blank
    ones included, while the chunks embedded and the records upserted are
    those of the non-blank chunks only. *)
Theorem summary_counts_all_chunks (W : services) (files : list upload_file)
    (h h' : history) (resp : upload_response) :
  upload_pdfs W files h = (Ok resp, h') ->
  status resp = "ok"
  /\ Forall2 (counts_all_chunks W) files (uploaded resp)
  /\ exists evs,
       h' = h ++ evs
       /\ embedding_inputs evs
          = flat_map (fun f => List.filter (fun c => negb (blank c)) (chunks_of W f)) files
       /\ map vec_text (upserted evs)
          = map (fun c => Some (MdStr c))
                (flat_map (fun f => List.filter (fun c => negb (blank c)) (chunks_of W f))
                          files).
Proof.
  intros Hrun. unfold upload_pdfs in Hrun.
  apply bind_ok in Hrun as (docs & h1 & Hloop & [= <- <-]).
  pose proof Hloop as Hemb.
  apply upload_loop_embedding_inputs in Hemb as (evs' & Hh1 & Hinputs).
  apply upload_loop_ok in Hloop as (new & evs & -> & -> & Hall & Htexts).
  apply app_inv_head in Hh1 as <-.
  simpl. eauto 6.
Qed.

Lemma summary_counts_all_chunks_witness :
  status (UploadResponse "ok" [DocSummary "doc0" "gappy.pdf" 3]) = "ok"
  /\ Forall2 (counts_all_chunks W0) [gappy]
             (uploaded (UploadResponse "ok" [DocSummary "doc0" "gappy.pdf" 3]))
  /\ exists evs,
       (upload_pdfs W0 [gappy] []).2 = [] ++ evs
       /\ embedding_inputs evs
          = flat_map (fun f => List.filter (fun c => negb (blank c)) (chunks_of W0 f))
                     [gappy]
       /\ map vec_text (upserted evs)
          = map (fun c => Some (MdStr c))
                (flat_map (fun f => List.filter (fun c => negb (blank c)) (chunks_of W0 f))
                          [gappy]).
Proof.
  apply (summary_counts_all_chunks W0 [gappy] [] (upload_pdfs W0 [gappy] []).2).
  vm_compute. reflexivity.
Defined.

End SummaryCounts.

(** ** Question answering: failures and the reach of the fallback *)

Section AskMore.
Import PyStr Chunker Backend Obs Demo Trace Outage.

(** X16.  When the embedding of the question fails, [ask_question] raises that
    error after this one call: the index is not queried and no answer is
    generated. *)
Theorem ask_embedding_failure (W : services) (question : string) (h : history) (e : exn) :
  embeddings_create W h "text-embedding-3-small" question = Raise e ->
  ask_question W question h
  = (Raise e, h ++ [EmbeddingsCreate "text-embedding-3-small" question]).
Proof.
  intros Hemb. unfold ask_question, bind, get_embedding, call. now rewrite Hemb.
Qed.

Lemma ask_embedding_failure_witness :
  ask_question W_all_embed_fail "What is it?" []
  = (Raise embed_error, [] ++ [EmbeddingsCreate "text-embedding-3-small" "What is it?"]).
Proof.
  apply (ask_embedding_failure W_all_embed_fail "What is it?" [] embed_error).
  reflexivity.
Defined.

(** X17.  When the index query fails, [ask_question] raises that error: the
    query, for the 5 nearest matches with their metadata, is its last call
    and no answer is generated. *)
Theorem ask_query_failure (W : services) (question : string) (h : history)
    (q_emb : embedding) (e : exn) :
  embeddings_create W h "text-embedding-3-small" question = Ok q_emb ->
  index_query W (h ++ [EmbeddingsCreate "text-embedding-3-small" question]) q_emb 5 true
  = Raise e ->
  ask_question W question h
  = (Raise e, h ++ [EmbeddingsCreate "text-embedding-3-small" question;
                    IndexQuery q_emb 5 true]).
Proof.
  intros Hemb Hquery. unfold ask_question, bind, get_embedding, call.
  rewrite Hemb, Hquery. now rewrite <- app_assoc.
Qed.

Lemma ask_query_failure_witness :
  ask_question W_query_down "What is it?" []
  = (Raise index_error,
     [] ++ [EmbeddingsCreate "text-embedding-3-small" "What is it?";
            IndexQuery [11%Z] 5 true]).
Proof.
  apply (ask_query_failure W_query_down "What is it?" [] [11%Z] index_error);
    reflexivity.
Defined.

(** X18.  With two matches or more the fallback answer is out of reach: whatever
    their texts, even all empty or missing, the chat completion service is
    called, with the joined texts as context, and its outcome is the
    outcome of [ask_question]. *)
Theorem two_matches_always_reach_chat (W : services) (question : string) (h : history)
    (q_emb : embedding) (m1 m2 : query_match) (others : list query_match) :
  let matches := m1 :: m2 :: others in
  let h1 := h ++ [EmbeddingsCreate "text-embedding-3-small" question] in
  let h2 := h1 ++ [IndexQuery q_emb 5 true] in
  let context := String.concat separator (map text_or_empty matches) in
  let messages := [("system", system_prompt); ("user", user_prompt question context)] in
  embeddings_create W h "text-embedding-3-small" question = Ok q_emb ->
  index_query W h1 q_emb 5 true = Ok matches ->
  texts_are_str matches ->
  ask_question W question h
  = (chat_completions_create W h2 "gpt-4o-mini" messages,
     h2 ++ [ChatCompletionsCreate "gpt-4o-mini" messages]).
Proof.
  intros matches h1 h2 context messages Hemb Hquery Hstr.
  pose proof (build_context_texts matches Hstr) as Hctx. fold context in Hctx.
  pose proof (context_of_two_not_blank m1 m2 others context Hctx) as Hblank.
  unfold ask_question, bind, get_embedding, call, lift. rewrite Hemb.
  fold h1. rewrite Hquery, Hctx. fold (blank context). rewrite Hblank.
  unfold generate_answer, call, ret. fold messages. fold h2.
  now destruct (chat_completions_create W h2 "gpt-4o-mini" messages).
Qed.

Lemma two_matches_always_reach_chat_witness :
  let matches := without_text :: without_metadata :: [] in
  let h1 := [] ++ [EmbeddingsCreate "text-embedding-3-small" "What is it?"] in
  let h2 := h1 ++ [IndexQuery [11%Z] 5 true] in
  let context := String.concat separator (map text_or_empty matches) in
  let messages := [("system", system_prompt); ("user", user_prompt "What is it?" context)] in
  ask_question (W_matches matches) "What is it?" []
  = (chat_completions_create (W_matches matches) h2 "gpt-4o-mini" messages,
     h2 ++ [ChatCompletionsCreate "gpt-4o-mini" messages]).
Proof.
  apply (two_matches_always_reach_chat (W_matches [without_text; without_metadata])
           "What is it?" [] [11%Z] without_text without_metadata []).
  - reflexivity.
  - reflexivity.
  - repeat constructor; simpl; intros md v [= <-].
    rewrite lookup_empty. discriminate.
Defined.

Lemma str_items_from_number (i : nat) (parts : list mdval) (n : Z) :
  In (MdInt n) parts ->
  exists e, str_items_from i parts = Raise e /\ exn_class e = "TypeError".
Proof.
  revert i. induction parts as [|p parts IH]; intros i; [intros []|].
  intros [->|Hin]; simpl; [eauto|].
  destruct p; [|eauto].
  destruct (IH (S i) Hin) as (e & -> & He). eauto.
Qed.

(** X19.  A match whose text field holds a number instead of a string makes the
    join fail: [ask_question] raises a [TypeError] after the query, and no
    answer is generated. *)
Theorem non_str_text_raises (W : services) (question : string) (h : history)
    (q_emb : embedding) (matches : list query_match) (m : query_match) (n : Z) :
  embeddings_create W h "text-embedding-3-small" question = Ok q_emb ->
  index_query W (h ++ [EmbeddingsCreate "text-embedding-3-small" question]) q_emb 5 true
  = Ok matches ->
  In m matches -> match_text m = MdInt n ->
  exists e,
    exn_class e = "TypeError"
    /\ ask_question W question h
       = (Raise e, h ++ [EmbeddingsCreate "text-embedding-3-small" question;
                         IndexQuery q_emb 5 true]).
Proof.
  intros Hemb Hquery Hin Hm.
  destruct (str_items_from_number 0 (map match_text matches) n) as (e & Hitems & He);
    [rewrite <- Hm; now apply in_map|].
  exists e. split; [exact He|].
  unfold ask_question, bind, get_embedding, call, lift. rewrite Hemb, Hquery.
  unfold build_context, join, str_items. rewrite fold_left_snoc. simpl.
  rewrite Hitems, <- app_assoc. reflexivity.
Qed.

Lemma non_str_text_raises_witness :
  exists e,
    exn_class e = "TypeError"
    /\ ask_question
         (W_matches [with_text 9 "A"; QueryMatch "id" 8 (Some (<["text" := MdInt 3]> ∅))])
         "What is it?" []
       = (Raise e, [] ++ [EmbeddingsCreate "text-embedding-3-small" "What is it?";
                          IndexQuery [11%Z] 5 true]).
Proof.
  apply (non_str_text_raises
           (W_matches [with_text 9 "A"; QueryMatch "id" 8 (Some (<["text" := MdInt 3]> ∅))])
           "What is it?" [] [11%Z]
           [with_text 9 "A"; QueryMatch "id" 8 (Some (<["text" := MdInt 3]> ∅))]
           (QueryMatch "id" 8 (Some (<["text" := MdInt 3]> ∅))) 3).
  - reflexivity.
  - reflexivity.
  - right. left. reflexivity.
  - vm_compute. reflexivity.
Defined.

End AskMore.

Section AskCalls.
Import PyStr Chunker Backend Obs Demo Trace Outage.

(** X20.  Whatever the services do, [ask_question] first asks the embedding of
    the question, then makes at most one index query, always for 5 matches
    with metadata, then at most one chat completion call, with the model
    [gpt-4o-mini], a system and a user message and a context that is not
    blank; it makes no other call. *)
Theorem ask_question_call_discipline (W : services) (question : string) (h : history) :
  exists rest,
    snd (ask_question W question h)
    = h ++ EmbeddingsCreate "text-embedding-3-small" question :: rest
    /\ (rest = []
        \/ (exists q_emb, rest = [IndexQuery q_emb 5 true])
        \/ (exists q_emb context,
              rest = [IndexQuery q_emb 5 true;
                      ChatCompletionsCreate "gpt-4o-mini"
                        [("system", system_prompt);
                         ("user", user_prompt question context)]]
              /\ blank context = false)).
Proof.
  unfold ask_question, bind, get_embedding, call, lift.
  destruct (embeddings_create W h _ question) as [q_emb|e].
  2:{ exists []. split; [reflexivity | now left]. }
  destruct (index_query W _ q_emb 5 true) as [matches|e].
  2:{ exists [IndexQuery q_emb 5 true]. rewrite <- app_assoc.
      split; [reflexivity | right; left; eauto]. }
  destruct (build_context matches) as [context|e].
  2:{ exists [IndexQuery q_emb 5 true]. rewrite <- app_assoc.
      split; [reflexivity | right; left; eauto]. }
  fold (blank context). destruct (blank context) eqn:Hb.
  - exists [IndexQuery q_emb 5 true]. unfold ret. rewrite <- app_assoc.
    split; [reflexivity | right; left; eauto].
  - unfold generate_answer, call, ret.
    eexists [IndexQuery q_emb 5 true; ChatCompletionsCreate _ _].
    split.
    { destruct (chat_completions_create W _ _ _); simpl; now rewrite <- !app_assoc. }
    right; right; eauto.
Qed.

End AskCalls.
